(** * Create-Cloudflare CLI, pages generator steps

    A shallow embedding of the bootstrap-and-deploy steps
    ([setupProjectDirectory], [offerToDeploy], [runDeploy], [chooseAccount],
    [offerGit], [isGitInstalled], [isInsideGitRepo], [initializeGit])
    together with the string and regular-expression primitives of the host
    language that these steps rely on.  Rendering (sections, spinners,
    colours) is left out; every call that reaches a collaborator is kept. *)

From Stdlib Require Import String.
From Stdlib Require Import List Ascii Bool Arith Lia.
Import ListNotations.
Local Open Scope list_scope.
Local Open Scope bool_scope.

Set Implicit Arguments.

(** ** Strings of the host language

    A string is the sequence of its code units.  The model covers code units
    below 256 (one [ascii] each); every separator, suffix and pattern of the
    program lies in that range. *)

Module JsString.

Definition str := list ascii.

(** A literal of the source text. *)
Definition lit (s : string) : str := list_ascii_of_string s.

Arguments lit s%_string : simpl never.

Fixpoint str_eqb (a b : str) : bool :=
  match a, b with
  | [], [] => true
  | x :: a', y :: b' => Ascii.eqb x y && str_eqb a' b'
  | _, _ => false
  end.

(** [prefixb p s]: the code units of [p] are the first ones of [s]. *)
Fixpoint prefixb (p s : str) : bool :=
  match p, s with
  | [], _ => true
  | x :: p', y :: s' => Ascii.eqb x y && prefixb p' s'
  | _ :: _, [] => false
  end.

(** [String.prototype.endsWith]: the comparison starts at
    [length s - length suf], and fails when that is negative. *)
Definition endsWith (s suf : str) : bool :=
  (length suf <=? length s) && str_eqb (skipn (length s - length suf) s) suf.

(** [String.prototype.includes]. *)
Fixpoint includes (s sub : str) : bool :=
  prefixb sub s ||
  match s with
  | [] => false
  | _ :: s' => includes s' sub
  end.

(** [String.prototype.split] with a string separator: the text is cut at
    every occurrence of the separator, found left to right, each search
    resuming after the previous occurrence.  [skip] counts the code units of
    the current occurrence that are still to be passed over. *)
Fixpoint split_go (sep : str) (skip : nat) (s : str) : list str :=
  match s with
  | [] => [[]]
  | c :: s' =>
      match skip with
      | S k => split_go sep k s'
      | O =>
          if prefixb sep s
          then [] :: split_go sep (length sep - 1) s'
          else match split_go sep 0 s' with
               | p :: ps => (c :: p) :: ps
               | [] => [[c]]
               end
      end
  end.

Definition split (s sep : str) : list str :=
  match sep with
  | [] => map (fun c => [c]) s
  | _ :: _ => split_go sep 0 s
  end.

(** [Array.prototype.join]. *)
Fixpoint join (sep : str) (l : list str) : str :=
  match l with
  | [] => []
  | x :: rest =>
      match rest with
      | [] => x
      | _ :: _ => x ++ sep ++ join sep rest
      end
  end.

(** [Array.prototype.slice(-n)]: the last [n] elements, all of them when the
    array is shorter. *)
Definition slice_last {A : Type} (n : nat) (l : list A) : list A :=
  skipn (length l - n) l.

(** White space removed by [String.prototype.trim], for code units below 256:
    TAB, LF, VT, FF, CR, SPACE and NBSP. *)
Definition isWhiteSpace (c : ascii) : bool :=
  let n := nat_of_ascii c in
  ((9 <=? n) && (n <=? 13)) || (n =? 32) || (n =? 160).

Fixpoint trimStart (s : str) : str :=
  match s with
  | [] => []
  | c :: s' => if isWhiteSpace c then trimStart s' else s
  end.

Definition trim (s : str) : str := rev (trimStart (rev (trimStart s))).

End JsString.

(** ** Regular expressions

    The fragment of the host language's patterns that the program uses:
    literal code units, the wildcard, sequencing, alternation and the greedy
    [+] over one code-unit class.  [run] is the backtracking matcher in
    continuation-passing form, [exec] the search for the leftmost match. *)

Module Regex.
Import JsString.

Inductive atom : Type :=
| Chr (c : ascii)
| Dot.

Inductive regex : Type :=
| Eps
| Atom (a : atom)
| Cat (r1 r2 : regex)
| Alt (r1 r2 : regex)
| Plus (a : atom).

(** Line terminators below 256: LF and CR. *)
Definition isLineTerminator (c : ascii) : bool :=
  let n := nat_of_ascii c in (n =? 10) || (n =? 13).

Definition atom_ok (a : atom) (c : ascii) : bool :=
  match a with
  | Chr x => Ascii.eqb x c
  | Dot => negb (isLineTerminator c)
  end.

(** Greedy repetition: take one more code unit when possible, and give it
    back when the rest of the pattern fails. *)
Fixpoint star (a : atom) (s : str) (k : str -> option str) : option str :=
  match s with
  | [] => k s
  | c :: s' =>
      if atom_ok a c then
        match star a s' k with
        | Some r => Some r
        | None => k s
        end
      else k s
  end.

Fixpoint run (r : regex) (s : str) (k : str -> option str) : option str :=
  match r with
  | Eps => k s
  | Atom a =>
      match s with
      | c :: s' => if atom_ok a c then k s' else None
      | [] => None
      end
  | Cat r1 r2 => run r1 s (fun s1 => run r2 s1 k)
  | Alt r1 r2 =>
      match run r1 s k with
      | Some x => Some x
      | None => run r2 s k
      end
  | Plus a =>
      match s with
      | c :: s' => if atom_ok a c then star a s' k else None
      | [] => None
      end
  end.

(** The text matched at the start of [s], when there is one. *)
Definition match_here (r : regex) (s : str) : option str :=
  match run r s (fun rest => Some rest) with
  | Some rest => Some (firstn (length s - length rest) s)
  | None => None
  end.

(** [String.prototype.match] with a pattern that has no global flag: element
    0 of the result, the match at the leftmost position that has one. *)
Fixpoint exec (r : regex) (s : str) : option str :=
  match match_here r s with
  | Some m => Some m
  | None =>
      match s with
      | [] => None
      | _ :: s' => exec r s'
      end
  end.

(** A literal word. *)
Fixpoint word (w : str) : regex :=
  match w with
  | [] => Eps
  | c :: w' => Cat (Atom (Chr c)) (word w')
  end.

(** The language of a pattern. *)
Inductive Matches : regex -> str -> Prop :=
| MEps : Matches Eps []
| MAtom a c : atom_ok a c = true -> Matches (Atom a) [c]
| MCat r1 r2 u1 u2 :
    Matches r1 u1 -> Matches r2 u2 -> Matches (Cat r1 r2) (u1 ++ u2)
| MAltL r1 r2 u : Matches r1 u -> Matches (Alt r1 r2) u
| MAltR r1 r2 u : Matches r2 u -> Matches (Alt r1 r2) u
| MPlus a u : u <> [] -> forallb (atom_ok a) u = true -> Matches (Plus a) u.

End Regex.

(** ** The steps of the generator *)

Module Common.
Import JsString Regex.

(** *** Session context *)

(** Modelled from the spec: the declarations of [types]
    ([PagesGeneratorArgs], [PagesGeneratorContext]) are not among the
    sources; the fields are the ones the data model lists and the steps
    read and write.  A flag that is not decided yet is [None]. *)
Record PagesGeneratorArgs : Type := {
  projectName : str;
  deploy : option bool;
  git : option bool;
  open : bool
}.

Record FrameworkConfig : Type := {
  deployCommand : option str;
  devCommand : option str
}.

Record Project : Type := {
  project_name : str;
  project_path : str
}.

(** The account bound by [chooseAccount]; the name is what the reverse
    lookup found, [None] when it found nothing. *)
Record Account : Type := {
  account_id : str;
  account_name : option str
}.

Record PagesGeneratorContext : Type := {
  args : PagesGeneratorArgs;
  project : Project;
  account : option Account;
  framework : option FrameworkConfig;
  deployedUrl : option str
}.

Definition set_deploy (v : option bool) (c : PagesGeneratorContext) :=
  {| args := {| projectName := projectName (args c); deploy := v;
                git := git (args c); open := open (args c) |};
     project := project c; account := account c;
     framework := framework c; deployedUrl := deployedUrl c |}.

Definition set_git (v : option bool) (c : PagesGeneratorContext) :=
  {| args := {| projectName := projectName (args c); deploy := deploy (args c);
                git := v; open := open (args c) |};
     project := project c; account := account c;
     framework := framework c; deployedUrl := deployedUrl c |}.

Definition set_account (a : Account) (c : PagesGeneratorContext) :=
  {| args := args c; project := project c; account := Some a;
     framework := framework c; deployedUrl := deployedUrl c |}.

Definition set_deployedUrl (u : str) (c : PagesGeneratorContext) :=
  {| args := args c; project := project c; account := account c;
     framework := framework c; deployedUrl := Some u |}.

(** Truthiness of an optional flag: [undefined] and [false] are falsy. *)
Definition truthy (v : option bool) : bool :=
  match v with
  | Some b => b
  | None => false
  end.

(** [a ?? b]: [b] only when [a] is [null] or [undefined]. *)
Definition nullish {A : Type} (a : option A) (b : A) : A :=
  match a with
  | Some x => x
  | None => b
  end.

(** *** Collaborators *)

(** A command handed to the process runner, with the options that reach
    the process: working directory and added environment. *)
Record Command : Type := {
  cmd_line : str;
  cmd_cwd : option str;
  cmd_env : list (str * str)
}.

(** The process runner resolves with the output on exit code 0 and rejects
    otherwise. *)
Inductive CmdResult : Type :=
| Resolved (output : str)
| Rejected (err : str).

Record ConfirmOptions : Type := {
  question : str;
  initialValue : option bool;
  defaultValue : option bool
}.

(** An account listing: the entries of the name-to-id object in enumeration
    order, one entry per name. *)
Definition Accounts := list (str * str).

(** What the steps consume from outside, over a state of the outside world
    that every call may read and change. *)
Class External (World : Type) : Type := {
  npm : str;
  spawn : Command -> World -> CmdResult * World;
  confirm : ConfirmOptions -> World -> bool * World;
  select : str -> list (str * str) -> World -> str * World;
  login : World -> bool * World;
  accountList : World -> option Accounts * World;
  path_resolve : World -> str -> str;
  process_cwd : World -> str;
  fs_exists : World -> str -> bool;
  fs_mkdir : str -> World -> option World;
  fs_chdir : str -> World -> option World;
  path_dirname : str -> str;
  path_basename : str -> str
}.

(** What a step does that can be seen from outside. *)
Inductive Event : Type :=
| Ran (c : Command)
| Status (msg : str)
| Asked (o : ConfirmOptions)
| Chose (q : str) (options : list (str * str))
| Login
| Listed
| MadeDir (d : str)
| ChangedDir (d : str).

Section Steps.

Context {World : Type} {E : External World}.

Record State : Type := {
  ctx : PagesGeneratorContext;
  world : World;
  trace : list Event
}.

(** How a step ends: it returns, it throws (a rejected promise, to be
    caught by an enclosing [try] if there is one), or it crashes. *)
Inductive Outcome (A : Type) : Type :=
| Returned (a : A) (s : State)
| Threw (err : str) (s : State)
| Crashed (msg : str) (s : State).

Arguments Returned {A} a s.
Arguments Threw {A} err s.
Arguments Crashed {A} msg s.

Definition M (A : Type) : Type := State -> Outcome A.

Definition ret {A : Type} (a : A) : M A := fun s => Returned a s.

Definition bind {A B : Type} (m : M A) (f : A -> M B) : M B :=
  fun s =>
    match m s with
    | Returned a s' => f a s'
    | Threw e s' => Threw e s'
    | Crashed msg s' => Crashed msg s'
    end.

Notation "x <- m ;; k" := (bind m (fun x => k))
  (at level 61, m at next level, right associativity).
Notation "m ;;; k" := (bind m (fun _ => k))
  (at level 61, right associativity).

Definition throw {A : Type} (e : str) : M A := fun s => Threw e s.

(** [try { m } catch { h }] *)
Definition try_catch {A : Type} (m h : M A) : M A :=
  fun s =>
    match m s with
    | Threw _ s' => h s'
    | o => o
    end.

(** Modelled from the spec: [crash] of [helpers/cli] is not among the
    sources; a fatal failure prints its message and aborts the whole
    pipeline, so nothing after it runs. *)
Definition crash {A : Type} (msg : str) : M A := fun s => Crashed msg s.

Definition getCtx : M PagesGeneratorContext := fun s => Returned (ctx s) s.

Definition modifyCtx (f : PagesGeneratorContext -> PagesGeneratorContext)
  : M unit :=
  fun s => Returned tt {| ctx := f (ctx s); world := world s; trace := trace s |}.

Definition record (e : Event) (w : World) (s : State) : State :=
  {| ctx := ctx s; world := w; trace := trace s ++ [e] |}.

(** [runCommand] of [helpers/command], through the process runner. *)
Definition runCommand (line : str) (cwd : option str) (env : list (str * str))
  : M str :=
  fun s =>
    let c := {| cmd_line := line; cmd_cwd := cwd; cmd_env := env |} in
    match spawn c (world s) with
    | (Resolved out, w) => Returned out (record (Ran c) w s)
    | (Rejected e, w) => Threw e (record (Ran c) w s)
    end.

Definition updateStatus (msg : str) : M unit :=
  fun s => Returned tt (record (Status msg) (world s) s).

Definition confirmInput (o : ConfirmOptions) : M bool :=
  fun s => let (v, w) := confirm o (world s) in Returned v (record (Asked o) w s).

Definition selectInput (q : str) (options : list (str * str)) : M str :=
  fun s =>
    let (v, w) := select q options (world s) in
    Returned v (record (Chose q options) w s).

Definition wranglerLogin : M bool :=
  fun s => let (v, w) := login (world s) in Returned v (record Login w s).

Definition listAccounts : M Accounts :=
  fun s =>
    match accountList (world s) with
    | (Some a, w) => Returned a (record Listed w s)
    | (None, w) => Threw (lit "listAccounts") (record Listed w s)
    end.

Definition mkdirSync (d : str) : M unit :=
  fun s =>
    match fs_mkdir d (world s) with
    | Some w => Returned tt (record (MadeDir d) w s)
    | None => Threw (lit "mkdirSync") s
    end.

Definition chdir (d : str) : M unit :=
  fun s =>
    match fs_chdir d (world s) with
    | Some w => Returned tt (record (ChangedDir d) w s)
    | None => Threw (lit "chdir") s
    end.

(** *** Fatal failures, by the message the code crashes with *)

Definition DirectoryConflict (name : str) : str :=
  lit "Directory `" ++ name ++ lit "` already exists. Please choose a new name.".

Definition MissingAccount : str := lit "Failed to read Cloudflare account.".

Definition NoDeploymentUrl : str := lit "Failed to find deployment url.".

(** *** setupProjectDirectory *)

Definition setupProjectDirectory (a : PagesGeneratorArgs) : M (str * str) :=
  fun s =>
    let path := path_resolve (world s) (projectName a) in
    let isCWD := str_eqb path (process_cwd (world s)) in
    let existsAlready := fs_exists (world s) path in
    if negb isCWD && existsAlready
    then crash (DirectoryConflict (projectName a)) s
    else
      let directory := path_dirname path in
      let name := path_basename path in
      (mkdirSync directory ;;;
       chdir directory ;;;
       ret (name, path)) s.

(** *** chooseAccount *)

(** [accounts[name]] *)
Fixpoint getAccount (accounts : Accounts) (name : str) : option str :=
  match accounts with
  | [] => None
  | (n, i) :: rest => if str_eqb n name then Some i else getAccount rest name
  end.

(** [Object.keys(accounts).find((name) => accounts[name] == accountId)] *)
Definition findAccountName (accounts : Accounts) (accountId : str)
  : option str :=
  find (fun name =>
          match getAccount accounts name with
          | Some i => str_eqb i accountId
          | None => false
          end)
       (map fst accounts).

Definition chooseAccount : M unit :=
  accounts <- listAccounts ;;
  accountId <-
    match accounts with
    | [(_, i)] => ret i
    | _ => selectInput (lit "Which account do you want to use?") accounts
    end ;;
  let accountName := findAccountName accounts accountId in
  modifyCtx (set_account
               {| account_id := accountId; account_name := accountName |}).

(** *** offerToDeploy *)

Definition offerToDeploy : M unit :=
  c <- getCtx ;;
  d <- confirmInput
         {| question := lit "Do you want to deploy your application?";
            initialValue := deploy (args c);
            defaultValue := None |} ;;
  modifyCtx (set_deploy (Some d)) ;;;
  c <- getCtx ;;
  if negb (truthy (deploy (args c))) then ret tt
  else
    loginSuccess <- wranglerLogin ;;
    if negb loginSuccess then ret tt
    else chooseAccount.

(** *** runDeploy *)

(** [/https:\/\/.+\.(pages|workers)\.dev/] *)
Definition deployedUrlRegex : regex :=
  Cat (word (lit "https://"))
   (Cat (Plus Dot)
    (Cat (Atom (Chr "."%char))
     (Cat (Alt (word (lit "pages")) (word (lit "workers")))
          (word (lit ".dev"))))).

(** The body of the [pages.dev] branch: the host is the second part of the
    URL cut at [://]; without a second part the call on it throws. *)
Definition removeSha1 (deployedUrl : str) : option str :=
  match split deployedUrl (lit "://") with
  | proto :: hostname :: _ =>
      let hostnameWithoutSHA1 :=
        join (lit ".") (slice_last 3 (split hostname (lit "."))) in
      Some (proto ++ lit "://" ++ hostnameWithoutSHA1)
  | _ => None
  end.

(** The last statement of [runDeploy] as a function of the URL it reads. *)
Definition canonicalUrl (deployedUrl : str) : option str :=
  if endsWith deployedUrl (lit ".pages.dev")
  then removeSha1 deployedUrl
  else Some deployedUrl.

Definition deployCmd (c : PagesGeneratorContext) : str :=
  npm ++ lit " run " ++
  nullish (match framework c with
           | Some f => deployCommand f
           | None => None
           end) (lit "deploy").

Definition runDeploy : M unit :=
  c <- getCtx ;;
  match deploy (args c) with
  | Some false => ret tt
  | _ =>
    match account c with
    | None => crash MissingAccount
    | Some a =>
      match account_id a with
      | [] => crash MissingAccount
      | _ :: _ =>
        result <- runCommand (deployCmd c) (Some (project_path (project c)))
                    [(lit "CLOUDFLARE_ACCOUNT_ID", account_id a)] ;;
        match exec deployedUrlRegex result with
        | Some m => modifyCtx (set_deployedUrl m)
        | None => crash NoDeploymentUrl
        end ;;;
        c <- getCtx ;;
        match deployedUrl c with
        | Some u =>
            if endsWith u (lit ".pages.dev") then
              match removeSha1 u with
              | Some u' => modifyCtx (set_deployedUrl u')
              | None => throw (lit "TypeError")
              end
            else ret tt
        | None => ret tt
        end
      end
    end
  end.

(** *** Version control *)

Definition isGitInstalled : M bool :=
  try_catch
    (runCommand (lit "git -v") None [] ;;; ret true)
    (ret false).

Definition isInsideGitRepo (cwd : str) : M bool :=
  try_catch
    (output <- runCommand (lit "git status") (Some cwd) [] ;;
     ret (negb (includes output (lit "not a git repository"))))
    (ret false).

(** The [try] block of [initializeGit]. *)
Definition initWithBranch (cwd : str) : M unit :=
  defaultBranchName <-
    runCommand (lit "git config --get init.defaultBranch") (Some cwd) [] ;;
  runCommand
    (lit "git init --initial-branch " ++
     nullish (Some (trim defaultBranchName)) (lit "main"))
    (Some cwd) [] ;;;
  ret tt.

(** The [catch] block of [initializeGit]. *)
Definition initPlain (cwd : str) : M unit :=
  runCommand (lit "git init") (Some cwd) [] ;;; ret tt.

Definition initializeGit (cwd : str) : M unit :=
  try_catch (initWithBranch cwd) (initPlain cwd).

Definition offerGit : M unit :=
  gitInstalled <- isGitInstalled ;;
  if negb gitInstalled then
    c <- getCtx ;;
    (if truthy (git (args c))
     then updateStatus
            (lit "Couldn't find `git` installed on your machine. Continuing without git.")
     else ret tt) ;;;
    modifyCtx (set_git (Some false))
  else
    c <- getCtx ;;
    insideGitRepo <- isInsideGitRepo (project_path (project c)) ;;
    if insideGitRepo then ret tt
    else
      c <- getCtx ;;
      match git (args c) with
      | None =>
          v <- confirmInput
                 {| question := lit "Do you want to use git?";
                    initialValue := None;
                    defaultValue := Some true |} ;;
          modifyCtx (set_git (Some v))
      | Some _ => ret tt
      end ;;;
      c <- getCtx ;;
      if truthy (git (args c))
      then initializeGit (project_path (project c))
      else ret tt.

(** *** Observations on a run *)

(** The commands a trace holds, in the order they were run. *)
Fixpoint commands (t : list Event) : list str :=
  match t with
  | [] => []
  | Ran c :: t' => cmd_line c :: commands t'
  | _ :: t' => commands t'
  end.

(** The events added to the trace [before] to reach the trace [after]. *)
Definition performed (before after : list Event) : list Event :=
  skipn (length before) after.

(** A repository-initialization command: [git init], with or without
    arguments. *)
Definition isInit (line : str) : bool := prefixb (lit "git init") line.

Definition gitVersion : Command :=
  {| cmd_line := lit "git -v"; cmd_cwd := None; cmd_env := [] |}.

Definition gitStatus (cwd : str) : Command :=
  {| cmd_line := lit "git status"; cmd_cwd := Some cwd; cmd_env := [] |}.

Definition gitConfig (cwd : str) : Command :=
  {| cmd_line := lit "git config --get init.defaultBranch";
     cmd_cwd := Some cwd; cmd_env := [] |}.

Definition gitInitBranch (cwd branch : str) : Command :=
  {| cmd_line := lit "git init --initial-branch " ++ branch;
     cmd_cwd := Some cwd; cmd_env := [] |}.

Definition gitInit (cwd : str) : Command :=
  {| cmd_line := lit "git init"; cmd_cwd := Some cwd; cmd_env := [] |}.

(** The command [runDeploy] hands to the process runner. *)
Definition deployCommandOf (c : PagesGeneratorContext) (a : Account)
  : Command :=
  {| cmd_line := deployCmd c;
     cmd_cwd := Some (project_path (project c));
     cmd_env := [(lit "CLOUDFLARE_ACCOUNT_ID", account_id a)] |}.

(** The state with [url] stored as the deployed URL. *)
Definition withUrl (url : str) (s : State) : State :=
  {| ctx := set_deployedUrl url (ctx s); world := world s; trace := trace s |}.

(** In state [s] a deploy is due, an account is bound, and the deploy
    command exits successfully with [output], leaving the world [w]. *)
Definition deployOutput (s : State) (output : str) (w : World) : Prop :=
  deploy (args (ctx s)) <> Some false /\
  exists a, account (ctx s) = Some a /\ account_id a <> [] /\
            spawn (deployCommandOf (ctx s) a) (world s) = (Resolved output, w).

(** The directory [path] is under version control in the world [w]: the
    tool answers, the status query run next succeeds, and its output lacks
    the not-a-repository text; [w'] is the world after both queries. *)
Definition versioned (path : str) (w w' : World) : Prop :=
  exists o1 w1 o2,
    spawn gitVersion w = (Resolved o1, w1) /\
    spawn (gitStatus path) w1 = (Resolved o2, w') /\
    includes o2 (lit "not a git repository") = false.

End Steps.

Arguments State World : clear implicits.
Arguments Outcome World A : clear implicits.
Arguments M World A : clear implicits.
Arguments Returned {World A} a s.
Arguments Threw {World A} err s.
Arguments Crashed {World A} msg s.

(** An https URL whose host ends in [.pages.dev] or [.workers.dev]: the
    scheme, a non-empty run of code units on one line, and one of the two
    suffixes. *)
Definition isDeploymentUrl (u : str) : Prop :=
  exists x suf,
    u = lit "https://" ++ x ++ suf /\
    x <> [] /\
    forallb (fun c => negb (isLineTerminator c)) x = true /\
    (suf = lit ".pages.dev" \/ suf = lit ".workers.dev").

(** The host as [removeSha1] takes it from the text after [https://]: what
    stands before the next [://], if there is one. *)
Definition hostOf (rest : str) : str := hd [] (split_go (lit "://") 0 rest).

(** The last three labels of a host, joined again. *)
Definition lastLabels (host : str) : str :=
  join (lit ".") (slice_last 3 (split host (lit "."))).

End Common.

(** ** A scripted outside world

    Canned answers for every collaborator, to run the steps on concrete
    inputs. *)

Module Scripted.
Import JsString Common.

Record Script : Type := {
  answers : list (str * CmdResult);
  confirms : bool;
  selects : str;
  logins : bool;
  listing : option Accounts;
  cwd : str;
  existing : list str
}.

Fixpoint answer (l : list (str * CmdResult)) (line : str) : CmdResult :=
  match l with
  | [] => Rejected (lit "command not found")
  | (k, r) :: rest => if str_eqb k line then r else answer rest line
  end.

(** Paths of the scripted world: absolute names stand for themselves, [.]
    for the working directory, any other name for an entry of it. *)
Definition resolveIn (base p : str) : str :=
  if prefixb (lit "/") p then p
  else if str_eqb p (lit ".") then base
  else base ++ lit "/" ++ p.

Definition dirnameOf (p : str) : str :=
  join (lit "/") (removelast (split p (lit "/"))).

Definition basenameOf (p : str) : str :=
  last (split p (lit "/")) [].

#[export] Instance scripted : External Script := {|
  npm := lit "npm";
  spawn := fun c w => (answer (answers w) (cmd_line c), w);
  confirm := fun _ w => (confirms w, w);
  select := fun _ _ w => (selects w, w);
  login := fun w => (logins w, w);
  accountList := fun w => (listing w, w);
  path_resolve := fun w p => resolveIn (cwd w) p;
  process_cwd := fun w => cwd w;
  fs_exists := fun w p => existsb (str_eqb p) (existing w);
  fs_mkdir := fun _ w => Some w;
  fs_chdir := fun _ w => Some w;
  path_dirname := dirnameOf;
  path_basename := basenameOf
|}.

Definition context (a : PagesGeneratorArgs) : PagesGeneratorContext :=
  {| args := a;
     project := {| project_name := lit "foo"; project_path := lit "/work/foo" |};
     account := None;
     framework := None;
     deployedUrl := None |}.

Definition start (a : PagesGeneratorArgs) (w : Script) : State Script :=
  {| ctx := context a; world := w; trace := [] |}.

Definition undecided : PagesGeneratorArgs :=
  {| projectName := lit "foo"; deploy := None; git := None; open := false |}.

Definition withGit : PagesGeneratorArgs :=
  {| projectName := lit "foo"; deploy := None; git := Some true; open := false |}.

Definition deploying : PagesGeneratorArgs :=
  {| projectName := lit "foo"; deploy := Some true; git := None; open := false |}.

Definition inPlace : PagesGeneratorArgs :=
  {| projectName := lit "."; deploy := None; git := None; open := false |}.

Definition acme : Account :=
  {| account_id := lit "acct_1"; account_name := Some (lit "acme") |}.

(** A world with nothing installed and nothing answered. *)
Definition bare : Script :=
  {| answers := []; confirms := true; selects := [];
     logins := false; listing := None; cwd := lit "/work"; existing := [] |}.

(** A world where the deploy command prints [output]. *)
Definition deployPrints (output : str) : Script :=
  {| answers := [(lit "npm run deploy", Resolved output)];
     confirms := true; selects := []; logins := true;
     listing := Some [(lit "acme", lit "acct_1")];
     cwd := lit "/work"; existing := [] |}.

(** A state ready to deploy in that world. *)
Definition readyToDeploy (output : str) : State Script :=
  {| ctx := set_account acme (context deploying);
     world := deployPrints output; trace := [] |}.

(** A world where the tool is installed and answers as [l] says. *)
Definition gitAnswers (l : list (str * CmdResult)) : Script :=
  {| answers := (lit "git -v", Resolved (lit "git version 2.39.2")) :: l;
     confirms := true; selects := []; logins := false; listing := None;
     cwd := lit "/work"; existing := [] |}.

(** The output of a configuration query whose value is empty: one line
    feed. *)
Definition emptyLine : str := ["010"%char].

(** A world with two accounts where the operator's answer is [picked]. *)
Definition twoAccounts (picked : str) : Script :=
  {| answers := []; confirms := true; selects := picked; logins := true;
     listing := Some [(lit "acme", lit "acct_1"); (lit "beta", lit "acct_2")];
     cwd := lit "/work"; existing := [] |}.

(** The project directory of the scripted context. *)
Definition projectPath : str := lit "/work/foo".

(** A world where the project directory is a repository already. *)
Definition versionedWorld : Script :=
  gitAnswers [(lit "git status", Resolved (lit "On branch main"))].

(** A world where only the plain initialization works. *)
Definition freshWorld : Script :=
  gitAnswers
    [(lit "git init", Resolved (lit "Initialized empty Git repository"))].

(** A world where the entries [paths] exist. *)
Definition withEntries (paths : list str) : Script :=
  {| answers := []; confirms := true; selects := []; logins := false;
     listing := None; cwd := lit "/work"; existing := paths |}.

End Scripted.

(** ** Further steps and observations *)

Module Steps.
Import JsString Regex Common.

(** The state an outcome leaves. *)
Definition outcomeState {World A : Type} (o : Outcome World A) : State World :=
  match o with
  | Returned _ s => s
  | Threw _ s => s
  | Crashed _ s => s
  end.

(** The number of confirmations asked in a trace. *)
Fixpoint prompts (t : list Event) : nat :=
  match t with
  | [] => 0
  | Asked _ :: t' => S (prompts t')
  | _ :: t' => prompts t'
  end.

(** The options of the two confirmations. *)
Definition deployQuestion (c : PagesGeneratorContext) : ConfirmOptions :=
  {| question := lit "Do you want to deploy your application?";
     initialValue := deploy (args c);
     defaultValue := None |}.

Definition gitQuestion : ConfirmOptions :=
  {| question := lit "Do you want to use git?";
     initialValue := None;
     defaultValue := Some true |}.

Definition accountQuestion : str := lit "Which account do you want to use?".

(** A command as [runCommands] takes it: one line, or the words of it. *)
Inductive CommandSpec : Type :=
| Line (s : str)
| Argv (words : list str).

(** A step of [printSummary] that reaches a collaborator. *)
Inductive SummaryAction : Type :=
| LogRaw (msg : str)
| Log (msg : str)
| Newline
| Poll (url : str)
| OpenInBrowser (url : str)
| EndSection (msg : str).

(** The colours and shapes of [helpers/colors] and [helpers/cli], which are
    not among the sources. *)
Record Palette : Type := {
  dim : str -> str;
  blue : str -> str;
  gray : str -> str;
  bgGreen : str -> str;
  leftT : str
}.

Section MoreSteps.

Context {World : Type} {E : External World}.

(** The id [chooseAccount] takes from a listing in the world [w]: the id of
    the only account, or else the operator's answer; and the world after
    that. *)
Definition chosenId (accounts : Accounts) (w : World) : str :=
  match accounts with
  | [(_, i)] => i
  | _ => fst (select accountQuestion accounts w)
  end.

Definition afterChoice (accounts : Accounts) (w : World) : World :=
  match accounts with
  | [(_, _)] => w
  | _ => snd (select accountQuestion accounts w)
  end.

(** The tool answers in the world [w], and the status query run next fails
    or tells that [path] is not in a repository; [w'] is the world after
    both queries. *)
Definition notVersioned (path : str) (w w' : World) : Prop :=
  exists o1 w1,
    spawn gitVersion w = (Resolved o1, w1) /\
    ((exists e, spawn (gitStatus path) w1 = (Rejected e, w')) \/
     (exists o2, spawn (gitStatus path) w1 = (Resolved o2, w') /\
                 includes o2 (lit "not a git repository") = true)).

(** The state after the two queries of [offerGit]. *)
Definition afterQueries (s : State World) (w1 w2 : World) : State World :=
  record (Ran (gitStatus (project_path (project (ctx s))))) w2
         (record (Ran gitVersion) w1 s).

(** *** gitCommit

    [runCommands] of [helpers/command] is not among the sources and is taken
    as a parameter: any step that is given the working directory and the
    commands. *)
Definition gitCommit (runCommands : option str -> list CommandSpec -> M World unit)
  : M World unit :=
  bind getCtx (fun c =>
    if negb (truthy (git (args c))) then ret tt
    else
      runCommands (Some (project_path (project c)))
        [Line (lit "git add .");
         Argv [lit "git"; lit "commit"; lit "-m";
               lit "Initial commit (by Create-Cloudflare CLI)"]]).

(** *** printSummary

    The calls of [printSummary] in order, for a context, a palette and the
    answer of [poll] for each URL.  A URL that is undefined or empty is
    falsy. *)
Definition devCmd (c : PagesGeneratorContext) : str :=
  npm ++ lit " run " ++
  nullish (match framework c with
           | Some f => devCommand f
           | None => None
           end) (lit "start").

Definition nextSteps (c : PagesGeneratorContext) : list (str * str) :=
  [(lit "Run the development server", devCmd c);
   (lit "Deploy your application", deployCmd c);
   (lit "Read the documentation",
    lit "https://developers.cloudflare.com/" ++
    (match framework c with
     | Some _ => lit "pages"
     | None => lit "workers"
     end));
   (lit "Stuck? Join us at", lit "https://discord.gg/cloudflaredev")].

Definition truthyUrl (c : PagesGeneratorContext) : option str :=
  match deployedUrl c with
  | Some (x :: u) => Some (x :: u)
  | _ => None
  end.

Definition printSummary (p : Palette) (poll : str -> bool)
           (c : PagesGeneratorContext) : list SummaryAction :=
  [LogRaw
     (match truthyUrl c with
      | Some u =>
          join (lit " ")
            [gray p (leftT p); bgGreen p (lit " SUCCESS ");
             dim p (lit "View your deployed application at"); blue p u]
      | None =>
          join (lit " ")
            [gray p (leftT p); bgGreen p (lit " APPLICATION CREATED ");
             dim p (lit "Deploy your application with");
             blue p (deployCmd c)]
      end)]
  ++ [Newline]
  ++ map (fun entry => Log (dim p (fst entry) ++ lit " " ++ blue p (snd entry)))
         (nextSteps c)
  ++ [Newline]
  ++ match truthyUrl c with
     | Some u =>
         Poll u ::
         (if poll u
          then if open (args c) then [OpenInBrowser u] else []
          else [])
     | None => []
     end
  ++ [EndSection (lit "See you again soon!")].

End MoreSteps.

(** The part of [deployedUrlRegex] after the repetition, and the matcher
    that goes on with it. *)
Definition suffixPattern : regex :=
  Cat (Atom (Chr "."%char))
      (Cat (Alt (word (lit "pages")) (word (lit "workers")))
           (word (lit ".dev"))).

Definition afterHost : str -> option str :=
  fun s => run suffixPattern s (fun r => Some r).

(** No [https://] begins within [pre] when the scheme follows it. *)
Definition noSchemeWithin (pre : str) : bool :=
  negb (includes (pre ++ lit "https:/") (lit "https://")).

(** The text that follows ends the line: there is none, or it begins with a
    line terminator. *)
Definition endsLine (post : str) : bool :=
  match post with
  | [] => true
  | c :: _ => isLineTerminator c
  end.

Definition singleLine (x : str) : bool :=
  forallb (fun c => negb (isLineTerminator c)) x.

End Steps.

(** ** The registry credentials command *)

Module Registries.
Import JsString Common.

Section Credentials.

(** The numbers of the host language, which the command only passes on; the
    options every command has ([v], [config], [env],
    [experimental-json-config]), which the handler does not read; and the
    configuration that the wrapper of the callback supplies. *)
Variable number : Type.
Variable common : Type.
Variable Config : Type.

Record CredentialsArgs : Type := {
  domain : str;
  expirationMinutes : number;
  push : option bool;
  pull : option bool;
  json : bool;
  others : common
}.

Definition set_json (v : bool) (a : CredentialsArgs) : CredentialsArgs :=
  {| domain := domain a; expirationMinutes := expirationMinutes a;
     push := push a; pull := pull a; json := v; others := others a |}.

(** What the callback does: it writes the message to the error console and
    ends the process with the code, or it awaits
    [generateImageRegistryCredentials] with these arguments and logs the
    password of the answer. *)
Inductive CredentialsStep : Type :=
| Exit (code : nat) (message : str)
| Generate (domain : str) (expiration_minutes : number)
           (permissions : list str).

(** The callback that the handler hands to [handleFailure]. *)
Definition credentialsCallback (imageArgs : CredentialsArgs) (_config : Config)
  : CredentialsStep :=
  if negb (truthy (pull imageArgs)) && negb (truthy (push imageArgs))
  then Exit 1 (lit "You have to specify either --push or --pull in the command.")
  else
    Generate (domain imageArgs) (expirationMinutes imageArgs)
      ((if truthy (push imageArgs) then [lit "push"] else []) ++
       (if truthy (pull imageArgs) then [lit "pull"] else [])).

(** The handler of the [credentials] command.  [handleFailure] of
    [../common] is not among the sources and is taken as a parameter: from a
    callback it makes what is run on the arguments, with a result of its
    own. *)
Definition credentialsHandler {R : Type}
           (handleFailure :
              (CredentialsArgs -> Config -> CredentialsStep) ->
              CredentialsArgs -> R)
           (args : CredentialsArgs) : R :=
  handleFailure credentialsCallback (set_json true args).

End Credentials.

Arguments Exit {number} code message.
Arguments Generate {number} domain expiration_minutes permissions.

End Registries.

(** ** More scripted worlds *)

Module ScriptedRuns.
Import JsString Common Steps Scripted.

(** A world where the tool is installed, the project directory is no
    repository, the operator answers [yes] to confirmations, and the
    commands answer as [l] says. *)
Definition gitWorld (yes : bool) (l : list (str * CmdResult)) : Script :=
  {| answers := (lit "git -v", Resolved (lit "git version 2.39.2")) ::
                (lit "git status",
                 Rejected (lit "fatal: not a git repository")) :: l;
     confirms := yes; selects := []; logins := false; listing := None;
     cwd := lit "/work"; existing := [] |}.

(** A world where the operator declines every confirmation. *)
Definition declining : Script :=
  {| answers := []; confirms := false; selects := []; logins := true;
     listing := Some [(lit "acme", lit "acct_1")];
     cwd := lit "/work"; existing := [] |}.

(** A world where the login works and the listing fails. *)
Definition listingFails : Script :=
  {| answers := []; confirms := true; selects := []; logins := true;
     listing := None; cwd := lit "/work"; existing := [] |}.

(** A world where the deploy command is rejected. *)
Definition deployFails : Script :=
  {| answers := [(lit "npm run deploy", Rejected (lit "exit 1"))];
     confirms := true; selects := []; logins := true;
     listing := Some [(lit "acme", lit "acct_1")];
     cwd := lit "/work"; existing := [] |}.

(** A state ready to deploy in that world. *)
Definition deployWillFail : State Script :=
  {| ctx := set_account acme (context deploying);
     world := deployFails; trace := [] |}.

(** A world where the default branch is configured as [main] and the tool
    accepts it. *)
Definition configured : Script :=
  gitAnswers
    [(lit "git config --get init.defaultBranch",
      Resolved (lit "main" ++ ["010"%char]));
     (lit "git init --initial-branch main",
      Resolved (lit "Initialized empty Git repository"))].

(** The line a deploy prints, in its parts. *)
Definition peek : str := lit "Take a peek over at ".

Definition printed : str :=
  peek ++ lit "https://" ++ lit "abcd1234.foo" ++ lit ".pages.dev" ++ [].

Definition plain : Palette :=
  {| dim := fun s => s; blue := fun s => s; gray := fun s => s;
     bgGreen := fun s => s; leftT := lit "|-" |}.

(** A commit step that runs nothing. *)
Definition noCommands : option str -> list CommandSpec -> M Script unit :=
  fun _ _ => ret tt.

Definition withGitOff : PagesGeneratorArgs :=
  {| projectName := lit "foo"; deploy := None; git := Some false;
     open := false |}.

Definition opening : PagesGeneratorArgs :=
  {| projectName := lit "foo"; deploy := Some true; git := None;
     open := true |}.

End ScriptedRuns.

(** * Facts *)

Import JsString Regex Common.

(** ** Strings *)


Lemma skipn_length_app {A : Type} (a b : list A) :
  skipn (length a) (a ++ b) = b.
Proof. induction a; simpl; congruence. Qed.

Lemma str_eqb_eq (a b : str) : str_eqb a b = true <-> a = b.
Proof.
  revert b; induction a as [|x a IH]; intros [|y b]; simpl; split;
    try congruence; try reflexivity.
  - intros H; apply andb_true_iff in H as [Hx Hab].
    apply Ascii.eqb_eq in Hx; apply IH in Hab; congruence.
  - intros H; injection H as -> ->.
    rewrite Ascii.eqb_refl; simpl; now apply IH.
Qed.

Lemma prefixb_spec (p s : str) :
  prefixb p s = true <-> exists r, s = p ++ r.
Proof.
  revert s; induction p as [|x p IH]; intros s; simpl.
  - split; [intros _; now exists s | reflexivity].
  - destruct s as [|y s].
    + split; [discriminate | intros [r Hr]; discriminate].
    + rewrite andb_true_iff, Ascii.eqb_eq, IH; split.
      * intros [-> [r ->]]; now exists r.
      * intros [r Hr]; injection Hr as -> ->; split; [reflexivity | now exists r].
Qed.

Lemma prefixb_app (p r : str) : prefixb p (p ++ r) = true.
Proof. apply prefixb_spec; now exists r. Qed.

Lemma endsWith_spec (s suf : str) :
  endsWith s suf = true <-> exists p, s = p ++ suf.
Proof.
  unfold endsWith; rewrite andb_true_iff, Nat.leb_le, str_eqb_eq; split.
  - intros [_ H]; exists (firstn (length s - length suf) s).
    pose proof (firstn_skipn (length s - length suf) s) as E.
    rewrite H in E; now symmetry.
  - intros [p ->]; rewrite length_app; split; [lia|].
    replace (length p + length suf - length suf) with (length p) by lia.
    now rewrite skipn_length_app.
Qed.

Lemma endsWith_app (p s suf : str) :
  endsWith s suf = true -> endsWith (p ++ s) suf = true.
Proof.
  rewrite !endsWith_spec; intros [q ->]; exists (p ++ q); now rewrite app_assoc.
Qed.

Lemma includes_spec (s sub : str) :
  includes s sub = true <-> exists a b, s = a ++ sub ++ b.
Proof.
  induction s as [|c s IH]; simpl.
  - rewrite orb_false_r, prefixb_spec; split.
    + intros [r Hr]; now exists [], r.
    + intros [a [b H]]; destruct a; [now exists b | discriminate].
  - rewrite orb_true_iff, prefixb_spec, IH; split.
    + intros [[r Hr] | [a [b ->]]]; [now exists [], r | now exists (c :: a), b].
    + intros [[|x a] [b H]]; [left; now exists b |].
      injection H as -> ->; right; now exists a, b.
Qed.

Lemma includes_false_app_r (p s sub : str) :
  includes (p ++ s) sub = false -> includes s sub = false.
Proof.
  intros H; destruct (includes s sub) eqn:E; [|reflexivity].
  apply includes_spec in E as [a [b ->]].
  assert (includes (p ++ a ++ sub ++ b) sub = true) as E'
    by (apply includes_spec; exists (p ++ a), b; now rewrite <- app_assoc).
  congruence.
Qed.

Lemma includes_false_prefixb (s sub : str) :
  includes s sub = false -> prefixb sub s = false.
Proof. destruct s; simpl; intros H; now apply orb_false_iff in H as [-> _]. Qed.

Lemma split_go_nonempty (sep : str) (k : nat) (s : str) :
  split_go sep k s <> [].
Proof.
  revert k; induction s as [|c s IH]; intros k; simpl; [discriminate|].
  destruct k; [|apply IH].
  destruct (prefixb sep (c :: s)); [discriminate|].
  destruct (split_go sep 0 s); discriminate.
Qed.

(** A text that holds no occurrence of the separator is one single piece. *)
Lemma split_go_free (sep s : str) :
  includes s sep = false -> split_go sep 0 s = [s].
Proof.
  induction s as [|c s IH]; simpl; [reflexivity|].
  intros H; apply orb_false_iff in H as [Hp Hs].
  simpl in Hp; rewrite Hp, IH by assumption; reflexivity.
Qed.

(** Passing over [k] code units and then splitting. *)
Lemma split_go_skip (sep : str) (k : nat) (s : str) :
  k <= length s -> split_go sep k s = split_go sep 0 (skipn k s).
Proof.
  revert k; induction s as [|c s IH]; intros [|k] Hk; simpl in *;
    try reflexivity; try lia.
  apply IH; lia.
Qed.

(** The first piece is a prefix of the text. *)
Lemma split_go_hd_prefix (sep s : str) :
  exists r, s = hd [] (split_go sep 0 s) ++ r.
Proof.
  induction s as [|c s [r IH]]; simpl; [now exists []|].
  destruct (prefixb sep (c :: s)); simpl; [now exists (c :: s)|].
  destruct (split_go sep 0 s) as [|p ps] eqn:E; simpl in *.
  - now destruct (@split_go_nonempty _ _ _ E).
  - exists r; now rewrite IH at 1.
Qed.

(** The first piece holds no occurrence of a non-empty separator. *)
Lemma split_go_hd_free (sep s : str) :
  sep <> [] -> includes (hd [] (split_go sep 0 s)) sep = false.
Proof.
  intros Hsep; induction s as [|c s IH]; simpl.
  - destruct sep; [congruence | reflexivity].
  - destruct (prefixb sep (c :: s)) eqn:Hp; simpl.
    + destruct sep; [congruence | reflexivity].
    + destruct (split_go_hd_prefix sep s) as [r Hr].
      destruct (split_go sep 0 s) as [|p ps] eqn:E; simpl in *.
      * now destruct (@split_go_nonempty _ _ _ E).
      * rewrite IH, orb_false_r.
        destruct (prefixb sep (c :: p)) eqn:Hq; [|reflexivity].
        apply prefixb_spec in Hq as [q Hq].
        assert (prefixb sep (c :: s) = true) as Hc.
        { apply prefixb_spec; exists (q ++ r).
          rewrite Hr, app_comm_cons, Hq, app_assoc; reflexivity. }
        congruence.
Qed.

(** Joining the pieces gives the text back. *)
Lemma join_split_go (sep : str) (k : nat) (s : str) :
  sep <> [] -> k <= length s -> join sep (split_go sep k s) = skipn k s.
Proof.
  intros Hsep; revert k; induction s as [|c s IH]; intros k Hk.
  - simpl in Hk; assert (k = 0) as -> by lia; reflexivity.
  - destruct k as [|k]; [|simpl; apply IH; simpl in Hk; lia].
    simpl split_go; destruct (prefixb sep (c :: s)) eqn:Hp.
    + apply prefixb_spec in Hp as [r Hr].
      destruct sep as [|x sep]; simpl in Hr.
      * congruence.
      * injection Hr as -> ->.
        replace (length (x :: sep) - 1) with (length sep) by (simpl; lia).
        assert (length sep <= length (sep ++ r)) as Hl
          by (rewrite length_app; lia).
        pose proof (IH (length sep) Hl) as IHs.
        simpl join.
        destruct (split_go (x :: sep) (length sep) (sep ++ r)) eqn:E;
          [now destruct (@split_go_nonempty _ _ _ E)|].
        now rewrite IHs, skipn_length_app.
    + pose proof (IH 0 (Nat.le_0_l _)) as IH0; simpl in IH0.
      destruct (split_go sep 0 s) as [|p ps] eqn:E;
        [now destruct (@split_go_nonempty _ _ _ E)|].
      simpl; destruct ps; simpl in *; now rewrite <- IH0.
Qed.

Lemma join_split (s sep : str) : sep <> [] -> join sep (split s sep) = s.
Proof.
  intros H; unfold split; destruct sep; [congruence|].
  apply (@join_split_go (a :: sep) 0 s); [discriminate | lia].
Qed.

(** Cutting at a one-unit separator [d]: a piece free of [d] followed by [d]. *)
Lemma split_go_app_sep1 (d : ascii) (x r : str) :
  includes x [d] = false ->
  split_go [d] 0 (x ++ d :: r) = x :: split_go [d] 0 r.
Proof.
  induction x as [|c x IH]; intros Hx.
  - simpl; now rewrite Ascii.eqb_refl.
  - simpl in Hx; apply orb_false_iff in Hx as [Hc Hx].
    rewrite andb_true_r in Hc.
    simpl; rewrite Hc; simpl; now rewrite IH.
Qed.

Lemma split_go_pieces_free (d : ascii) (s : str) :
  Forall (fun p => includes p [d] = false) (split_go [d] 0 s).
Proof.
  induction s as [|c s IH]; simpl; [now repeat constructor|].
  rewrite andb_true_r; destruct (Ascii.eqb d c) eqn:Hc.
  - constructor; [reflexivity | exact IH].
  - destruct (split_go [d] 0 s) as [|p ps]; [now repeat constructor; simpl; rewrite Hc|].
    inversion IH as [|? ? Hp Hps]; subst; constructor; [|assumption].
    simpl; now rewrite Hc, andb_true_r, Hp.
Qed.

(** Splitting what was joined gives the pieces back. *)
Lemma split_go_join (d : ascii) (l : list str) :
  l <> [] -> Forall (fun p => includes p [d] = false) l ->
  split_go [d] 0 (join [d] l) = l.
Proof.
  induction l as [|x l IH]; [congruence|]; intros _ H.
  inversion H as [|? ? Hx Hl]; subst.
  destruct l as [|y l]; [now apply split_go_free|].
  change (join [d] (x :: y :: l)) with (x ++ d :: join [d] (y :: l)).
  rewrite split_go_app_sep1 by assumption.
  now rewrite IH.
Qed.

(** The joined tail of a list of pieces is a suffix of the joined list. *)
Lemma join_app_suffix (sep : str) (l1 l2 : list str) :
  exists p, join sep (l1 ++ l2) = p ++ join sep l2.
Proof.
  induction l1 as [|x l1 [p IH]]; [now exists []|].
  simpl app; simpl join; destruct (l1 ++ l2) as [|y l] eqn:E.
  - apply app_eq_nil in E as [_ ->]; exists x; now rewrite app_nil_r.
  - exists (x ++ sep ++ p); now rewrite IH, <- !app_assoc.
Qed.

Lemma join_skipn_suffix (sep : str) (n : nat) (l : list str) :
  exists p, join sep l = p ++ join sep (skipn n l).
Proof.
  destruct (join_app_suffix sep (firstn n l) (skipn n l)) as [p Hp].
  exists p; now rewrite <- Hp, firstn_skipn.
Qed.

Lemma slice_last_all {A : Type} (n : nat) (l : list A) :
  length l <= n -> slice_last n l = l.
Proof.
  intros H; unfold slice_last; now replace (length l - n) with 0 by lia.
Qed.

Lemma slice_last_length {A : Type} (n : nat) (l : list A) :
  length (slice_last n l) <= n.
Proof. unfold slice_last; rewrite length_skipn; lia. Qed.

Lemma slice_last_nonempty {A : Type} (n : nat) (l : list A) :
  l <> [] -> 0 < n -> slice_last n l <> [].
Proof.
  intros Hl Hn H; apply (f_equal (@length A)) in H.
  unfold slice_last in H; rewrite length_skipn in H.
  destruct l; [congruence | simpl length in H; lia].
Qed.

Lemma slice_last_Forall {A : Type} (P : A -> Prop) (n : nat) (l : list A) :
  Forall P l -> Forall P (slice_last n l).
Proof.
  unfold slice_last; generalize (length l - n) as k; intros k; revert l.
  induction k as [|k IH]; intros l H; [exact H|].
  destruct l; [constructor|]; inversion H; subst; simpl; now apply IH.
Qed.

(** ** The matcher finds exactly the language *)


Lemma firstn_length_app {A : Type} (a b : list A) :
  firstn (length a) (a ++ b) = a.
Proof. induction a; simpl; congruence. Qed.

Lemma star_fallback (a : atom) (s : str) (k : str -> option str) :
  star a s k = None -> k s = None.
Proof.
  destruct s as [|c s]; simpl; [auto|].
  destruct (atom_ok a c); [|auto].
  destruct (star a s k); [discriminate | auto].
Qed.

Lemma star_complete (a : atom) (u rest : str) (k : str -> option str) :
  forallb (atom_ok a) u = true -> k rest <> None ->
  star a (u ++ rest) k <> None.
Proof.
  induction u as [|c u IH]; simpl; intros Hu Hk.
  - intros H; apply star_fallback in H; contradiction.
  - apply andb_true_iff in Hu as [Hc Hu]; rewrite Hc.
    destruct (star a (u ++ rest) k) eqn:E; [discriminate|].
    now destruct (IH Hu Hk).
Qed.

Lemma star_sound (a : atom) (s : str) (k : str -> option str) (x : str) :
  star a s k = Some x ->
  exists u rest, s = u ++ rest /\ forallb (atom_ok a) u = true /\
                 k rest = Some x.
Proof.
  induction s as [|c s IH]; simpl; intros H.
  - now exists [], [].
  - destruct (atom_ok a c) eqn:Hc; [|now exists [], (c :: s)].
    destruct (star a s k) eqn:E; [|now exists [], (c :: s)].
    injection H as ->.
    destruct (IH eq_refl) as [u [rest [-> [Hu Hk]]]].
    exists (c :: u), rest; simpl; now rewrite Hc, Hu.
Qed.

Lemma run_sound (r : regex) :
  forall (s : str) (k : str -> option str) (x : str),
    run r s k = Some x ->
    exists u rest, s = u ++ rest /\ Matches r u /\ k rest = Some x.
Proof.
  induction r as [|a|r1 IH1 r2 IH2|r1 IH1 r2 IH2|a]; simpl; intros s k x H.
  - exists [], s; repeat split; [constructor | assumption].
  - destruct s as [|c s]; [discriminate|].
    destruct (atom_ok a c) eqn:Hc; [|discriminate].
    exists [c], s; repeat split; [now constructor | assumption].
  - apply IH1 in H as [u1 [rest1 [-> [H1 H]]]].
    apply IH2 in H as [u2 [rest [-> [H2 H]]]].
    exists (u1 ++ u2), rest; rewrite app_assoc.
    repeat split; [now constructor | assumption].
  - destruct (run r1 s k) eqn:E.
    + injection H as ->; apply IH1 in E as [u [rest [-> [H1 H]]]].
      exists u, rest; repeat split; [now apply MAltL | assumption].
    + apply IH2 in H as [u [rest [-> [H2 H]]]].
      exists u, rest; repeat split; [now apply MAltR | assumption].
  - destruct s as [|c s]; [discriminate|].
    destruct (atom_ok a c) eqn:Hc; [|discriminate].
    apply star_sound in H as [u [rest [-> [Hu H]]]].
    exists (c :: u), rest; repeat split; [|assumption].
    apply MPlus; [discriminate | simpl; now rewrite Hc, Hu].
Qed.

Lemma run_complete (r : regex) (u : str) :
  Matches r u ->
  forall (rest : str) (k : str -> option str),
    k rest <> None -> run r (u ++ rest) k <> None.
Proof.
  induction 1 as [|a c Hc|r1 r2 u1 u2 _ IH1 _ IH2|r1 r2 u _ IH|r1 r2 u _ IH
                 |a u Hu Ha]; intros rest k Hk; simpl.
  - assumption.
  - now rewrite Hc.
  - rewrite <- app_assoc; apply IH1; now apply IH2.
  - destruct (run r1 (u ++ rest) k) eqn:E; [discriminate|].
    now destruct (IH rest k Hk).
  - destruct (run r1 (u ++ rest) k); [discriminate | now apply IH].
  - destruct u as [|c u]; [congruence|]; simpl in *.
    apply andb_true_iff in Ha as [Hc Ha]; rewrite Hc.
    now apply star_complete.
Qed.

Lemma match_here_sound (r : regex) (s m : str) :
  match_here r s = Some m -> Matches r m /\ exists post, s = m ++ post.
Proof.
  unfold match_here; destruct (run r s (fun rest => Some rest)) eqn:E;
    [|discriminate].
  intros H; injection H as <-.
  apply run_sound in E as [u [rest [-> [Hu Hk]]]]; injection Hk as ->.
  rewrite length_app.
  replace (length u + length s0 - length s0) with (length u) by lia.
  rewrite firstn_length_app; split; [assumption | now exists s0].
Qed.

Lemma match_here_complete (r : regex) (u post : str) :
  Matches r u -> match_here r (u ++ post) <> None.
Proof.
  intros H; unfold match_here.
  destruct (run r (u ++ post) (fun rest => Some rest)) eqn:E; [discriminate|].
  exfalso; revert E; apply run_complete; [assumption | discriminate].
Qed.

Lemma exec_unfold (r : regex) (s : str) :
  exec r s = match match_here r s with
             | Some m => Some m
             | None => match s with [] => None | _ :: s' => exec r s' end
             end.
Proof. destruct s; reflexivity. Qed.

(** What [exec] returns is in the language, and is a part of the text. *)
Lemma exec_sound (r : regex) (s m : str) :
  exec r s = Some m ->
  Matches r m /\ exists pre post, s = pre ++ m ++ post.
Proof.
  induction s as [|c s IH]; rewrite exec_unfold;
    destruct (match_here _ _) eqn:E; try discriminate.
  - intros H; injection H as ->; apply match_here_sound in E as [Hm [post ->]].
    split; [assumption | now exists [], post].
  - intros H; injection H as ->; apply match_here_sound in E as [Hm [post Hp]].
    split; [assumption | now exists [], post].
  - intros H; apply IH in H as [Hm [pre [post ->]]].
    split; [assumption | now exists (c :: pre), post].
Qed.

(** [exec] finds nothing exactly when no part of the text is in the
    language. *)
Lemma exec_none (r : regex) (s : str) :
  exec r s = None <->
  (forall pre u post, s = pre ++ u ++ post -> ~ Matches r u).
Proof.
  split.
  - intros H pre; revert s H; induction pre as [|c pre IH];
      intros s H u post -> Hu; rewrite exec_unfold in H.
    + destruct (match_here r ([] ++ u ++ post)) eqn:E; [discriminate|].
      simpl in E; revert E; now apply match_here_complete.
    + destruct (match_here _ _); [discriminate|].
      simpl in H; exact (IH _ H u post eq_refl Hu).
  - induction s as [|c s IH]; intros H; rewrite exec_unfold;
      destruct (match_here _ _) eqn:E.
    + apply match_here_sound in E as [Hm [post Hp]].
      now destruct (H [] s post Hp).
    + reflexivity.
    + apply match_here_sound in E as [Hm [post Hp]].
      now destruct (H [] s0 post Hp).
    + apply IH; intros pre u post -> Hu.
      exact (H (c :: pre) u post eq_refl Hu).
Qed.

Lemma Matches_word (w u : str) : Matches (word w) u <-> u = w.
Proof.
  revert u; induction w as [|c w IH]; intros u; simpl; split.
  - inversion 1; reflexivity.
  - intros ->; constructor.
  - inversion 1 as [| |r1 r2 u1 u2 H1 H2| | |]; subst.
    inversion H1 as [|a c' Hc| | | |]; subst; simpl in Hc.
    apply Ascii.eqb_eq in Hc as <-; apply IH in H2 as ->; reflexivity.
  - intros ->; change (c :: w) with ([c] ++ w); constructor.
    + constructor; simpl; apply Ascii.eqb_refl.
    + now apply IH.
Qed.

(** ** The steps *)

Section StepFacts.

Context {World : Type} {E : External World}.

Lemma bind_returned {A B : Type} (m : M World A) (f : A -> M World B)
      (s s' : State World) (a : A) :
  m s = Returned a s' -> bind m f s = f a s'.
Proof. unfold bind; now intros ->. Qed.

Lemma bind_threw {A B : Type} (m : M World A) (f : A -> M World B)
      (s s' : State World) (e : str) :
  m s = Threw e s' -> bind m f s = Threw e s'.
Proof. unfold bind; now intros ->. Qed.

Lemma bind_crashed {A B : Type} (m : M World A) (f : A -> M World B)
      (s s' : State World) (msg : str) :
  m s = Crashed msg s' -> bind m f s = Crashed msg s'.
Proof. unfold bind; now intros ->. Qed.

Lemma bind_getCtx {B : Type} (f : PagesGeneratorContext -> M World B)
      (s : State World) :
  bind getCtx f s = f (ctx s) s.
Proof. reflexivity. Qed.

Lemma performed_app (t l : list Event) : performed t (t ++ l) = l.
Proof. apply skipn_length_app. Qed.

Lemma runCommand_resolved (line : str) (cwd : option str)
      (env : list (str * str)) (s : State World) (out : str) (w : World) :
  spawn {| cmd_line := line; cmd_cwd := cwd; cmd_env := env |} (world s)
    = (Resolved out, w) ->
  runCommand line cwd env s
    = Returned out
        (record (Ran {| cmd_line := line; cmd_cwd := cwd; cmd_env := env |})
                w s).
Proof. unfold runCommand; now intros ->. Qed.

Lemma runCommand_rejected (line : str) (cwd : option str)
      (env : list (str * str)) (s : State World) (e : str) (w : World) :
  spawn {| cmd_line := line; cmd_cwd := cwd; cmd_env := env |} (world s)
    = (Rejected e, w) ->
  runCommand line cwd env s
    = Threw e
        (record (Ran {| cmd_line := line; cmd_cwd := cwd; cmd_env := env |})
                w s).
Proof. unfold runCommand; now intros ->. Qed.

(** [isGitInstalled] never throws: it answers whether [git -v] exited
    successfully. *)
Lemma isGitInstalled_spec (s : State World) :
  isGitInstalled s =
  match spawn gitVersion (world s) with
  | (Resolved _, w) => Returned true (record (Ran gitVersion) w s)
  | (Rejected _, w) => Returned false (record (Ran gitVersion) w s)
  end.
Proof.
  unfold isGitInstalled, try_catch, bind, runCommand, gitVersion.
  now destruct (spawn _ _) as [[o|e] w].
Qed.

(** [isInsideGitRepo] never throws: a failed status query counts as not
    being inside a repository. *)
Lemma isInsideGitRepo_spec (cwd : str) (s : State World) :
  isInsideGitRepo cwd s =
  match spawn (gitStatus cwd) (world s) with
  | (Resolved o, w) =>
      Returned (negb (includes o (lit "not a git repository")))
               (record (Ran (gitStatus cwd)) w s)
  | (Rejected _, w) => Returned false (record (Ran (gitStatus cwd)) w s)
  end.
Proof.
  unfold isInsideGitRepo, try_catch, bind, runCommand, gitStatus.
  now destruct (spawn _ _) as [[o|e] w].
Qed.

(** On a directory under version control [offerGit] runs the two queries
    and nothing else, and leaves the context as it was. *)
Lemma offerGit_versioned (s : State World) (w' : World) :
  versioned (project_path (project (ctx s))) (world s) w' ->
  exists o1 w1,
    spawn gitVersion (world s) = (Resolved o1, w1) /\
    offerGit s =
    Returned tt
      (record (Ran (gitStatus (project_path (project (ctx s))))) w'
              (record (Ran gitVersion) w1 s)).
Proof.
  intros [o1 [w1 [o2 [H1 [H2 H3]]]]]; exists o1, w1; split; [assumption|].
  unfold offerGit.
  erewrite bind_returned by (rewrite isGitInstalled_spec, H1; reflexivity).
  change (negb true) with false; cbv iota.
  rewrite bind_getCtx.
  erewrite bind_returned
    by (rewrite isInsideGitRepo_spec; simpl; rewrite H2, H3; reflexivity).
  reflexivity.
Qed.

(** [C5] When the version-control binary is unavailable and [args.git] is
    true on input, [offerGit] returns normally with [args.git] set to false;
    all it did was to run [git -v] and to emit the advisory with
    [updateStatus], so no repository-initialization command was invoked. *)
Theorem C5_git_unavailable_disables_git
        (s : State World) (e : str) (w : World) :
  spawn gitVersion (world s) = (Rejected e, w) ->
  git (args (ctx s)) = Some true ->
  exists s',
    offerGit s = Returned tt s' /\
    ctx s' = set_git (Some false) (ctx s) /\
    git (args (ctx s')) = Some false /\
    performed (trace s) (trace s') =
      [Ran gitVersion;
       Status (lit "Couldn't find `git` installed on your machine. Continuing without git.")] /\
    existsb isInit (commands (performed (trace s) (trace s'))) = false.
Proof.
  intros Hv Hg; eexists; split.
  - unfold offerGit.
    erewrite bind_returned by (rewrite isGitInstalled_spec, Hv; reflexivity).
    change (negb false) with true; cbv iota.
    unfold bind, getCtx, updateStatus, modifyCtx; simpl.
    rewrite Hg; simpl; reflexivity.
  - simpl; rewrite <- app_assoc, performed_app; simpl.
    repeat split; reflexivity.
Qed.

(** [C9] On a directory already under version control (the status query
    succeeds and its output lacks the not-a-repository text) [offerGit]
    returns after the two queries, with the context unchanged and without
    any initialization command; run a second time on the directory, it
    performs no initialization either. *)
Theorem C9_versioned_directory_never_initialized
        (s : State World) (w1 w2 : World) :
  versioned (project_path (project (ctx s))) (world s) w1 ->
  versioned (project_path (project (ctx s))) w1 w2 ->
  (exists s1,
      offerGit s = Returned tt s1 /\
      ctx s1 = ctx s /\
      commands (performed (trace s) (trace s1)) =
        [lit "git -v"; lit "git status"] /\
      existsb isInit (commands (performed (trace s) (trace s1))) = false) /\
  (exists s2,
      bind offerGit (fun _ => offerGit) s = Returned tt s2 /\
      ctx s2 = ctx s /\
      commands (performed (trace s) (trace s2)) =
        [lit "git -v"; lit "git status"; lit "git -v"; lit "git status"] /\
      existsb isInit (commands (performed (trace s) (trace s2))) = false).
Proof.
  intros V1 V2.
  destruct (offerGit_versioned s V1) as [o1 [u1 [_ R1]]].
  split.
  - eexists; split; [exact R1|]; simpl.
    rewrite <- app_assoc, performed_app; repeat split; reflexivity.
  - erewrite bind_returned by exact R1.
    match goal with |- context [offerGit ?st] => set (s1 := st) end.
    assert (versioned (project_path (project (ctx s1))) (world s1) w2) as V
      by exact V2.
    destruct (offerGit_versioned s1 V) as [o3 [u3 [_ R2]]].
    eexists; split; [exact R2|]; subst s1; simpl.
    rewrite <- !app_assoc, performed_app; repeat split; reflexivity.
Qed.

(** The branch that [initializeGit] asks for is the trimmed output of the
    configuration query, whatever that is: the fallback name is never
    substituted. *)
Lemma initWithBranch_requests_trimmed_output
      (cwd : str) (s : State World) (out : str) (w1 : World) :
  spawn (gitConfig cwd) (world s) = (Resolved out, w1) ->
  exists o,
    initWithBranch cwd s = o /\
    match o with
    | Returned _ s' | Threw _ s' | Crashed _ s' =>
        performed (trace s) (trace s') =
          [Ran (gitConfig cwd); Ran (gitInitBranch cwd (trim out))]
    end.
Proof.
  intros H; eexists; split; [reflexivity|].
  unfold initWithBranch.
  erewrite bind_returned by (apply runCommand_resolved; exact H).
  unfold bind, runCommand, gitInitBranch, nullish; simpl.
  destruct (spawn _ w1) as [[o|e] w2]; simpl;
    now rewrite <- app_assoc, performed_app.
Qed.

(** [C7], in the form the code satisfies: when the branch-name-aware initialization fails,
    [initializeGit] goes on with the plain [git init], run exactly once from
    the state the failure left; it returns when that command succeeds, and
    when that command fails too its error is thrown out of
    [initializeGit]. *)
Theorem C7_plain_init_once_and_its_error_propagates
        (cwd : str) (s s1 : State World) (e : str) :
  initWithBranch cwd s = Threw e s1 ->
  initializeGit cwd s = initPlain cwd s1 /\
  (forall o w, spawn (gitInit cwd) (world s1) = (Resolved o, w) ->
     initializeGit cwd s = Returned tt (record (Ran (gitInit cwd)) w s1)) /\
  (forall e2 w, spawn (gitInit cwd) (world s1) = (Rejected e2, w) ->
     initializeGit cwd s = Threw e2 (record (Ran (gitInit cwd)) w s1)).
Proof.
  intros H.
  assert (initializeGit cwd s = initPlain cwd s1) as R
    by (unfold initializeGit, try_catch; now rewrite H).
  split; [exact R | split]; intros x w Hx; rewrite R; unfold initPlain.
  - now erewrite bind_returned by (apply runCommand_resolved; exact Hx).
  - now erewrite bind_threw by (apply runCommand_rejected; exact Hx).
Qed.

(** [C4] [setupProjectDirectory] crashes with the directory-conflict
    message when the resolved path is not the current working directory and
    an entry exists there; when the resolved path is the current working
    directory it never crashes, whether or not an entry exists, and returns
    the leaf name and the path once the parent is created and entered. *)
Theorem C4_directory_conflict_unless_cwd
        (a : PagesGeneratorArgs) (s : State World) :
  let path := path_resolve (world s) (projectName a) in
  (path <> process_cwd (world s) ->
   fs_exists (world s) path = true ->
   setupProjectDirectory a s = Crashed (DirectoryConflict (projectName a)) s)
  /\
  (path = process_cwd (world s) ->
   (forall msg s', setupProjectDirectory a s <> Crashed msg s') /\
   (forall w1 w2,
       fs_mkdir (path_dirname path) (world s) = Some w1 ->
       fs_chdir (path_dirname path) w1 = Some w2 ->
       exists s',
         setupProjectDirectory a s = Returned (path_basename path, path) s' /\
         ctx s' = ctx s)).
Proof.
  intros path; subst path; split.
  - intros Hne Hex; unfold setupProjectDirectory.
    destruct (str_eqb _ _) eqn:Heq; [apply str_eqb_eq in Heq; congruence|].
    now rewrite Hex.
  - intros Heq; unfold setupProjectDirectory.
    apply str_eqb_eq in Heq; rewrite Heq; simpl.
    unfold bind, mkdirSync, chdir, ret; split.
    + intros msg s'; destruct (fs_mkdir _ _) as [w1|]; simpl; [|discriminate].
      destruct (fs_chdir _ _) as [w2|]; discriminate.
    + intros w1 w2 -> ; simpl; intros ->; eexists; split; reflexivity.
Qed.

(** What [findAccountName] returns is a name that the listing maps to the
    chosen id. *)
Lemma findAccountName_some (accounts : Accounts) (i n : str) :
  findAccountName accounts i = Some n -> getAccount accounts n = Some i.
Proof.
  unfold findAccountName; intros H; apply find_some in H as [_ H].
  destruct (getAccount accounts n); [|discriminate].
  apply str_eqb_eq in H; congruence.
Qed.

Lemma getAccount_in (accounts : Accounts) (n i : str) :
  getAccount accounts n = Some i -> In (n, i) accounts.
Proof.
  induction accounts as [|[k v] rest IH]; simpl; [discriminate|].
  destruct (str_eqb k n) eqn:Hk.
  - apply str_eqb_eq in Hk; intros H; injection H as ->; left; congruence.
  - intros H; right; now apply IH.
Qed.

(** [C8], in the form the code satisfies: after the id is chosen, [chooseAccount] looks its
    name up among the names of the listing and binds the account with the
    chosen id and whatever the lookup gave; it returns in every case.  A
    name that was found is one the listing maps to the chosen id, and when
    no entry of the listing has the chosen id the name stays undefined. *)
Theorem C8_reverse_lookup_never_fails
        (s : State World) (accounts : Accounts) (w1 : World) :
  accountList (world s) = (Some accounts, w1) ->
  let chosen :=
    match accounts with
    | [(_, i)] => i
    | _ => fst (select (lit "Which account do you want to use?") accounts w1)
    end in
  exists s',
    chooseAccount s = Returned tt s' /\
    account (ctx s') =
      Some {| account_id := chosen;
              account_name := findAccountName accounts chosen |} /\
    (forall n, findAccountName accounts chosen = Some n ->
               In (n, chosen) accounts) /\
    ((forall n i, In (n, i) accounts -> i <> chosen) ->
     findAccountName accounts chosen = None).
Proof.
  intros Hl chosen.
  assert (forall n, findAccountName accounts chosen = Some n ->
                    In (n, chosen) accounts) as Hfound
    by (intros n H; now apply getAccount_in, findAccountName_some).
  assert (exists s', chooseAccount s = Returned tt s' /\
            account (ctx s') =
              Some {| account_id := chosen;
                      account_name := findAccountName accounts chosen |})
    as [s' [R A]].
  { unfold chooseAccount, bind at 1, listAccounts; rewrite Hl.
    subst chosen; destruct accounts as [|[n i] [|p rest]];
      unfold bind, selectInput, ret, modifyCtx; simpl;
      try destruct (select _ _ _) as [v w]; simpl;
      eexists; split; reflexivity. }
  exists s'; repeat split; try assumption.
  intros Hnone; destruct (findAccountName accounts chosen) as [n|] eqn:F;
    [|reflexivity].
  now destruct (Hnone n chosen (Hfound n eq_refl)).
Qed.

(** [C1], in the form the code satisfies: when the operator asks for a deploy and the login
    step fails, [offerToDeploy] returns without selecting an account, with
    [args.deploy] still true; [runDeploy] run after it executes no command,
    and crashes with the missing-account message, also when steps that leave
    the deploy flag and the account alone have run in between. *)
Theorem C1_login_failure_then_missing_account
        (s : State World) (w1 w2 : World) :
  confirm {| question := lit "Do you want to deploy your application?";
             initialValue := deploy (args (ctx s));
             defaultValue := None |} (world s) = (true, w1) ->
  login w1 = (false, w2) ->
  account (ctx s) = None ->
  exists s1,
    offerToDeploy s = Returned tt s1 /\
    ctx s1 = set_deploy (Some true) (ctx s) /\
    commands (performed (trace s) (trace s1)) = [] /\
    bind offerToDeploy (fun _ => runDeploy) s = Crashed MissingAccount s1 /\
    (forall s2,
        deploy (args (ctx s2)) = deploy (args (ctx s1)) ->
        account (ctx s2) = account (ctx s1) ->
        runDeploy s2 = Crashed MissingAccount s2).
Proof.
  intros Hc Hl Ha.
  assert (exists s1, offerToDeploy s = Returned tt s1 /\
                     ctx s1 = set_deploy (Some true) (ctx s) /\
                     commands (performed (trace s) (trace s1)) = [])
    as [s1 [R [C T]]].
  { unfold offerToDeploy, bind, getCtx, confirmInput, modifyCtx, wranglerLogin;
      simpl.
    rewrite Hc; simpl; rewrite Hl; simpl.
    eexists; split; [reflexivity|]; simpl.
    rewrite <- app_assoc, performed_app; split; reflexivity. }
  assert (forall s2,
             deploy (args (ctx s2)) = deploy (args (ctx s1)) ->
             account (ctx s2) = account (ctx s1) ->
             runDeploy s2 = Crashed MissingAccount s2) as K.
  { intros s2 Hd Hacc; unfold runDeploy; rewrite bind_getCtx, Hd, Hacc, C.
    simpl; now rewrite Ha. }
  exists s1; repeat split; try assumption.
  erewrite bind_returned by exact R.
  now apply K.
Qed.

End StepFacts.

(** ** The deployment URL *)

Section UrlFacts.

Lemma split_https (rest : str) :
  split (lit "https://" ++ rest) (lit "://")
  = lit "https" :: split_go (lit "://") 0 rest.
Proof. reflexivity. Qed.

Lemma removeSha1_https (rest : str) :
  removeSha1 (lit "https://" ++ rest)
  = Some (lit "https://" ++ lastLabels (hostOf rest)).
Proof.
  unfold removeSha1; rewrite split_https; unfold hostOf.
  destruct (split_go (lit "://") 0 rest) as [|h t] eqn:Hs;
    [now destruct (@split_go_nonempty _ _ _ Hs) | reflexivity].
Qed.

Lemma hostOf_free (host : str) :
  includes host (lit "://") = false -> hostOf host = host.
Proof. intros H; unfold hostOf; now rewrite split_go_free. Qed.

Lemma split_lastLabels (host : str) :
  split (lastLabels host) (lit ".") = slice_last 3 (split host (lit ".")).
Proof.
  unfold lastLabels.
  change (split host (lit ".")) with (split_go ["."%char] 0 host).
  change (split (join (lit ".") (slice_last 3 (split_go ["."%char] 0 host)))
                (lit "."))
    with (split_go ["."%char] 0 (join ["."%char] (slice_last 3 (split_go ["."%char] 0 host)))).
  apply split_go_join.
  - apply slice_last_nonempty; [apply split_go_nonempty | lia].
  - apply slice_last_Forall, split_go_pieces_free.
Qed.

(** The last labels are a suffix of the host. *)
Lemma lastLabels_suffix (host : str) :
  exists p, host = p ++ lastLabels host.
Proof.
  unfold lastLabels, slice_last.
  destruct (join_skipn_suffix (lit ".")
              (length (split host (lit ".")) - 3) (split host (lit ".")))
    as [p Hp].
  exists p; rewrite <- Hp; symmetry; apply join_split; discriminate.
Qed.

Lemma lastLabels_idem (host : str) :
  lastLabels (lastLabels host) = lastLabels host.
Proof.
  unfold lastLabels at 1; rewrite split_lastLabels.
  rewrite slice_last_all by apply slice_last_length; reflexivity.
Qed.

Lemma lastLabels_short (host : str) :
  length (split host (lit ".")) <= 3 -> lastLabels host = host.
Proof.
  intros H; unfold lastLabels; rewrite slice_last_all by assumption.
  apply join_split; discriminate.
Qed.

Lemma lastLabels_free (host : str) :
  includes host (lit "://") = false ->
  includes (lastLabels host) (lit "://") = false.
Proof.
  intros H; destruct (lastLabels_suffix host) as [p Hp].
  rewrite Hp in H; now apply includes_false_app_r in H.
Qed.

(** What [removeSha1] makes of an https URL is left as it is by a second
    application. *)
Lemma removeSha1_fixed (rest : str) :
  removeSha1 (lit "https://" ++ lastLabels (hostOf rest))
  = Some (lit "https://" ++ lastLabels (hostOf rest)).
Proof.
  rewrite removeSha1_https.
  rewrite hostOf_free
    by (apply lastLabels_free; unfold hostOf; apply split_go_hd_free;
        discriminate).
  now rewrite lastLabels_idem.
Qed.

(** On an https URL the rewrite is defined, gives an https URL, and is
    idempotent. *)
Lemma canonicalUrl_https_idem (rest : str) :
  exists rest',
    canonicalUrl (lit "https://" ++ rest) = Some (lit "https://" ++ rest') /\
    canonicalUrl (lit "https://" ++ rest') = Some (lit "https://" ++ rest').
Proof.
  unfold canonicalUrl at 1.
  destruct (endsWith (lit "https://" ++ rest) (lit ".pages.dev")) eqn:He.
  - exists (lastLabels (hostOf rest)); split; [apply removeSha1_https|].
    unfold canonicalUrl.
    destruct (endsWith (lit "https://" ++ lastLabels (hostOf rest))
                       (lit ".pages.dev")); [|reflexivity].
    apply removeSha1_fixed.
  - exists rest; split; [reflexivity|].
    unfold canonicalUrl; now rewrite He.
Qed.

(** An https URL whose host holds no second [://] and ends in [.pages.dev]
    keeps the last three labels of the host. *)
Lemma canonicalUrl_pages (host : str) :
  includes host (lit "://") = false ->
  endsWith host (lit ".pages.dev") = true ->
  canonicalUrl (lit "https://" ++ host)
  = Some (lit "https://" ++ lastLabels host).
Proof.
  intros Hf He; unfold canonicalUrl.
  rewrite endsWith_app by assumption.
  now rewrite removeSha1_https, hostOf_free.
Qed.

Lemma canonicalUrl_short (host : str) :
  includes host (lit "://") = false ->
  length (split host (lit ".")) <= 3 ->
  canonicalUrl (lit "https://" ++ host) = Some (lit "https://" ++ host).
Proof.
  intros Hf Hl; unfold canonicalUrl; destruct (endsWith _ _); [|reflexivity].
  now rewrite removeSha1_https, hostOf_free, lastLabels_short.
Qed.

(** The language of [deployedUrlRegex]. *)
Lemma Matches_deployedUrlRegex (u : str) :
  Matches deployedUrlRegex u <-> isDeploymentUrl u.
Proof.
  unfold deployedUrlRegex, isDeploymentUrl; split.
  - intros H.
    inversion H as [| |? ? u1 v1 H1 G1| | |]; subst; clear H.
    inversion G1 as [| |? ? u2 v2 H2 G2| | |]; subst; clear G1.
    inversion G2 as [| |? ? u3 v3 H3 G3| | |]; subst; clear G2.
    inversion G3 as [| |? ? u4 u5 H4 H5| | |]; subst; clear G3.
    apply (proj1 (Matches_word (lit "https://") _)) in H1.
    apply (proj1 (Matches_word (lit ".dev") _)) in H5; subst.
    inversion H2 as [| | | | |? ? Hne Hall]; subst; clear H2.
    inversion H3 as [|? c Hc| | | |]; subst; clear H3.
    apply (proj1 (Ascii.eqb_eq "."%char c)) in Hc; subst c.
    exists u2, (["."%char] ++ u4 ++ lit ".dev"); repeat split; try assumption.
    inversion H4 as [| | |? ? ? Hw|? ? ? Hw|]; subst.
    + apply (proj1 (Matches_word (lit "pages") _)) in Hw; subst; now left.
    + apply (proj1 (Matches_word (lit "workers") _)) in Hw; subst; now right.
  - intros [x [suf [-> [Hne [Hall Hs]]]]].
    apply MCat; [now apply Matches_word|].
    assert (exists lab, suf = ["."%char] ++ lab ++ lit ".dev" /\
                        Matches (Alt (word (lit "pages")) (word (lit "workers")))
                                lab) as [lab [-> Hl]].
    { destruct Hs as [-> | ->].
      - exists (lit "pages"); split; [reflexivity|].
        now apply MAltL, Matches_word.
      - exists (lit "workers"); split; [reflexivity|].
        now apply MAltR, Matches_word. }
    apply MCat; [now apply MPlus|].
    apply MCat; [apply MAtom; apply Ascii.eqb_refl|].
    apply MCat; [assumption | now apply Matches_word].
Qed.

(** What [exec] extracts with [deployedUrlRegex] is an https URL. *)
Lemma exec_deployedUrl_https (output m : str) :
  exec deployedUrlRegex output = Some m ->
  exists rest, m = lit "https://" ++ rest.
Proof.
  intros H; apply exec_sound in H as [H _].
  apply Matches_deployedUrlRegex in H as [x [suf [-> _]]].
  now exists (x ++ suf).
Qed.

(** [exec] finds no match exactly when no part of the output is a
    deployment URL. *)
Lemma exec_deployedUrl_none (output : str) :
  exec deployedUrlRegex output = None <->
  (forall pre u post, output = pre ++ u ++ post -> ~ isDeploymentUrl u).
Proof.
  rewrite exec_none; split; intros H pre u post Ho Hu;
    apply (H pre u post Ho); now apply Matches_deployedUrlRegex.
Qed.

End UrlFacts.

Section DeployFacts.

Context {World : Type} {E : External World}.

(** [runDeploy] once the deploy command has printed [output]. *)
Lemma runDeploy_spec (s : State World) (a : Account) (output : str)
      (w : World) :
  deploy (args (ctx s)) <> Some false ->
  account (ctx s) = Some a ->
  account_id a <> [] ->
  spawn (deployCommandOf (ctx s) a) (world s) = (Resolved output, w) ->
  runDeploy s =
  let s1 := record (Ran (deployCommandOf (ctx s) a)) w s in
  match exec deployedUrlRegex output with
  | None => Crashed NoDeploymentUrl s1
  | Some m =>
      match canonicalUrl m with
      | Some u => Returned tt (withUrl u s1)
      | None => Threw (lit "TypeError") (withUrl m s1)
      end
  end.
Proof.
  intros Hd Ha Hi Hs; unfold runDeploy; rewrite bind_getCtx, Ha.
  assert (forall (x y : M World unit),
             match deploy (args (ctx s)) with
             | Some false => x
             | _ => y
             end = y) as -> by (destruct (deploy _) as [[|]|]; congruence).
  destruct (account_id a) as [|i0 i] eqn:Hid; [congruence|].
  erewrite bind_returned
    by (apply runCommand_resolved; unfold deployCommandOf in Hs;
        rewrite Hid in Hs; exact Hs).
  unfold deployCommandOf; rewrite Hid; cbv zeta.
  destruct (exec deployedUrlRegex output) as [m|]; [|reflexivity].
  unfold bind, modifyCtx, getCtx, canonicalUrl; simpl.
  destruct (endsWith m (lit ".pages.dev")); [|reflexivity].
  destruct (removeSha1 m); reflexivity.
Qed.

End DeployFacts.

(** ** The deploy step and its URL *)

Section DeployClaims.

Context {World : Type} {E : External World}.

(** [C2] When the URL extracted from the deploy output is [https://] followed
    by a host that ends in [.pages.dev], [runDeploy] stores the URL with only
    the last three dot-separated labels of the host; an extracted URL that
    does not end in [.pages.dev] is stored as it is.  The output
    [https://abc123.myproj.pages.dev] gives [https://myproj.pages.dev], and
    the output [https://myworker.example.workers.dev] is stored unchanged. *)
Theorem C2_pages_url_keeps_last_three_labels (s : State World) (w : World) :
  (forall output host,
      deployOutput s output w ->
      exec deployedUrlRegex output = Some (lit "https://" ++ host) ->
      includes host (lit "://") = false ->
      endsWith host (lit ".pages.dev") = true ->
      exists s',
        runDeploy s = Returned tt s' /\
        deployedUrl (ctx s') =
          Some (lit "https://" ++
                join (lit ".") (slice_last 3 (split host (lit "."))))) /\
  (forall output url,
      deployOutput s output w ->
      exec deployedUrlRegex output = Some url ->
      endsWith url (lit ".pages.dev") = false ->
      exists s',
        runDeploy s = Returned tt s' /\ deployedUrl (ctx s') = Some url) /\
  (deployOutput s (lit "https://abc123.myproj.pages.dev") w ->
   exists s',
     runDeploy s = Returned tt s' /\
     deployedUrl (ctx s') = Some (lit "https://myproj.pages.dev")) /\
  (deployOutput s (lit "https://myworker.example.workers.dev") w ->
   exists s',
     runDeploy s = Returned tt s' /\
     deployedUrl (ctx s') = Some (lit "https://myworker.example.workers.dev")).
Proof.
  split; [|split; [|split]].
  - intros output host [Hd [a [Ha [Hi Hs]]]] Hm Hf He.
    rewrite (runDeploy_spec s Hd Ha Hi Hs); cbv zeta.
    rewrite Hm, canonicalUrl_pages by assumption.
    eexists; split; reflexivity.
  - intros output url [Hd [a [Ha [Hi Hs]]]] Hm He.
    rewrite (runDeploy_spec s Hd Ha Hi Hs); cbv zeta.
    rewrite Hm; unfold canonicalUrl; rewrite He.
    eexists; split; reflexivity.
  - intros [Hd [a [Ha [Hi Hs]]]].
    rewrite (runDeploy_spec s Hd Ha Hi Hs); cbv zeta.
    replace (exec deployedUrlRegex (lit "https://abc123.myproj.pages.dev"))
      with (Some (lit "https://abc123.myproj.pages.dev"))
      by (vm_compute; reflexivity).
    replace (canonicalUrl (lit "https://abc123.myproj.pages.dev"))
      with (Some (lit "https://myproj.pages.dev"))
      by (vm_compute; reflexivity).
    eexists; split; reflexivity.
  - intros [Hd [a [Ha [Hi Hs]]]].
    rewrite (runDeploy_spec s Hd Ha Hi Hs); cbv zeta.
    replace (exec deployedUrlRegex (lit "https://myworker.example.workers.dev"))
      with (Some (lit "https://myworker.example.workers.dev"))
      by (vm_compute; reflexivity).
    replace (canonicalUrl (lit "https://myworker.example.workers.dev"))
      with (Some (lit "https://myworker.example.workers.dev"))
      by (vm_compute; reflexivity).
    eexists; split; reflexivity.
Qed.

(** [C3], in the form the code satisfies: when the deploy command exits
    successfully and no part of its output is an https URL with a host
    ending in [.pages.dev] or [.workers.dev], [runDeploy] crashes with the
    no-deployment-url message; when the command exits with an error, its
    output is not looked at and [runDeploy] throws the error of the command
    instead.  In both cases the command was run, and the context, so the
    deployed URL too, is as it was before the step. *)
Theorem C3_no_url_crashes_after_exit_0_and_rejection_is_thrown
        (s : State World) (output : str) (w : World) :
  (deployOutput s output w ->
   (forall pre u post, output = pre ++ u ++ post -> ~ isDeploymentUrl u) ->
   exists s',
     runDeploy s = Crashed NoDeploymentUrl s' /\
     ctx s' = ctx s /\
     deployedUrl (ctx s') = deployedUrl (ctx s) /\
     commands (performed (trace s) (trace s')) = [deployCmd (ctx s)]) /\
  (forall a e,
      deploy (args (ctx s)) <> Some false ->
      account (ctx s) = Some a ->
      account_id a <> [] ->
      spawn (deployCommandOf (ctx s) a) (world s) = (Rejected e, w) ->
      exists s',
        runDeploy s = Threw e s' /\
        ctx s' = ctx s /\
        deployedUrl (ctx s') = deployedUrl (ctx s) /\
        commands (performed (trace s) (trace s')) = [deployCmd (ctx s)]).
Proof.
  split.
  - intros [Hd [a [Ha [Hi Hs]]]] Hn.
    rewrite (runDeploy_spec s Hd Ha Hi Hs); cbv zeta.
    apply exec_deployedUrl_none in Hn; rewrite Hn.
    eexists; split; [reflexivity|]; simpl.
    rewrite performed_app; repeat split; reflexivity.
  - intros a e Hd Ha Hi Hs.
    exists (record (Ran (deployCommandOf (ctx s) a)) w s); split.
    + unfold runDeploy; rewrite bind_getCtx, Ha.
      assert (forall (x y : M World unit),
                 match deploy (args (ctx s)) with
                 | Some false => x
                 | _ => y
                 end = y) as -> by (destruct (deploy _) as [[|]|]; congruence).
      unfold deployCommandOf in *.
      destruct (account_id a) as [|i0 i]; [congruence|].
      now erewrite bind_threw by (apply runCommand_rejected; exact Hs).
    + simpl; rewrite performed_app; repeat split; reflexivity.
Qed.

(** [C10] The rewrite of the deployed URL is idempotent on https URLs: it is
    defined on each of them, and applied to its own result it gives that
    result again.  An https URL whose host has three labels or fewer is
    returned as it is.  So the URL that [runDeploy] has stored is left
    unchanged by the rewrite. *)
Theorem C10_canonical_url_idempotent :
  (forall rest,
      exists r,
        canonicalUrl (lit "https://" ++ rest) = Some r /\
        canonicalUrl r = Some r) /\
  (forall host,
      includes host (lit "://") = false ->
      length (split host (lit ".")) <= 3 ->
      canonicalUrl (lit "https://" ++ host) = Some (lit "https://" ++ host)) /\
  (forall (s s' : State World) output w,
      deployOutput s output w ->
      runDeploy s = Returned tt s' ->
      exists d,
        deployedUrl (ctx s') = Some d /\ canonicalUrl d = Some d).
Proof.
  split; [|split].
  - intros rest; destruct (canonicalUrl_https_idem rest) as [r [H1 H2]].
    now exists (lit "https://" ++ r).
  - exact canonicalUrl_short.
  - intros s s' output w [Hd [a [Ha [Hi Hs]]]].
    rewrite (runDeploy_spec s Hd Ha Hi Hs); cbv zeta.
    destruct (exec deployedUrlRegex output) as [m|] eqn:Hm; [|discriminate].
    destruct (exec_deployedUrl_https _ Hm) as [rest ->].
    destruct (canonicalUrl_https_idem rest) as [r [H1 H2]].
    rewrite H1; intros H; injection H as <-.
    now exists (lit "https://" ++ r).
Qed.

End DeployClaims.

(** ** Runs in the scripted world *)

Section Runs.

Import Scripted.

(** [C1] A run against the claim: the operator asks for a deploy, the login fails,
    and the deploy step that follows crashes with the missing-account
    message. *)
Lemma C1_login_failure_crashes_deploy_step :
  login (world (start undecided bare)) = (false, bare) /\
  exists s',
    bind offerToDeploy (fun _ => runDeploy) (start undecided bare)
    = Crashed MissingAccount s'.
Proof. split; [reflexivity | eexists; reflexivity]. Qed.

(** [C6] A run against the claim: the configuration query succeeds with an
    empty value, and the repository is initialized with an empty branch name
    where the fallback name was meant. *)
Lemma C6_empty_configured_branch_requests_empty_name :
  trim emptyLine = [] /\
  exists s',
    initializeGit projectPath
      (start withGit
         (gitAnswers
            [(lit "git config --get init.defaultBranch", Resolved emptyLine);
             (lit "git init --initial-branch ", Resolved [])]))
    = Returned tt s' /\
    commands (trace s') =
      [lit "git config --get init.defaultBranch";
       lit "git init --initial-branch "] /\
    ~ In (lit "git init --initial-branch main") (commands (trace s')).
Proof.
  split; [reflexivity|]; eexists; split; [reflexivity|].
  split; [reflexivity|]; simpl; intros [H|[H|[]]]; discriminate H.
Qed.

(** [C7] A run against the claim: the configured branch cannot be read, the plain
    [git init] fails too, and its error comes out of [initializeGit]. *)
Lemma C7_plain_init_failure_is_thrown :
  exists s',
    initializeGit projectPath
      (start withGit
         (gitAnswers
            [(lit "git config --get init.defaultBranch", Rejected []);
             (lit "git init", Rejected (lit "fatal: cannot mkdir"))]))
    = Threw (lit "fatal: cannot mkdir") s'.
Proof. eexists; reflexivity. Qed.

(** [C8] A run against the claim: the operator's answer is the id of no listed
    account, and the selection returns with an undefined name. *)
Lemma C8_unknown_id_gives_undefined_name :
  findAccountName [(lit "acme", lit "acct_1"); (lit "beta", lit "acct_2")]
                  (lit "acct_3") = None /\
  exists s',
    chooseAccount (start deploying (twoAccounts (lit "acct_3")))
    = Returned tt s' /\
    account (ctx s') =
      Some {| account_id := lit "acct_3"; account_name := None |}.
Proof. split; [reflexivity | eexists; split; [lazy|]; reflexivity]. Qed.

(** The scripted state [readyToDeploy] is one where the deploy command
    prints the given output. *)
Lemma readyToDeploy_output (output : str) :
  deployOutput (readyToDeploy output) output (deployPrints output).
Proof.
  split; [discriminate|].
  exists acme; split; [reflexivity|].
  split; [discriminate | reflexivity].
Defined.

(** [C1] The operator asks for a deploy in a world where the login fails. *)
Lemma C1_login_failure_run :
  exists s1,
    offerToDeploy (start undecided bare) = Returned tt s1 /\
    deploy (args (ctx s1)) = Some true /\
    bind offerToDeploy (fun _ => runDeploy) (start undecided bare)
    = Crashed MissingAccount s1.
Proof.
  destruct (@C1_login_failure_then_missing_account Script scripted
              (start undecided bare) bare bare)
    as [s1 [R [C [_ [K _]]]]]; try reflexivity.
  exists s1; repeat split; [exact R | now rewrite C | exact K].
Defined.

(** [C2] A deploy whose output ends with a pages URL. *)
Lemma C2_pages_run :
  exists s',
    runDeploy (readyToDeploy (lit "Take a peek over at https://abcd1234.foo.pages.dev"))
    = Returned tt s' /\
    deployedUrl (ctx s') = Some (lit "https://foo.pages.dev").
Proof.
  apply (proj1 (@C2_pages_url_keeps_last_three_labels Script scripted
                  (readyToDeploy (lit "Take a peek over at https://abcd1234.foo.pages.dev"))
                  (deployPrints (lit "Take a peek over at https://abcd1234.foo.pages.dev")))
               (lit "Take a peek over at https://abcd1234.foo.pages.dev")
               (lit "abcd1234.foo.pages.dev")).
  - apply readyToDeploy_output.
  - vm_compute; reflexivity.
  - vm_compute; reflexivity.
  - vm_compute; reflexivity.
Defined.

(** [C3] A run against the claim: the deploy command exits with an error,
    what it printed holds no URL, and [runDeploy] throws the error of the
    command where the crash was claimed. *)
Lemma C3_rejected_command_throws_its_error :
  spawn (deployCommandOf (ctx ScriptedRuns.deployWillFail) acme)
        (world ScriptedRuns.deployWillFail)
  = (Rejected (lit "exit 1"), ScriptedRuns.deployFails) /\
  exec deployedUrlRegex (lit "exit 1") = None /\
  (exists s', runDeploy ScriptedRuns.deployWillFail = Threw (lit "exit 1") s') /\
  (forall s', runDeploy ScriptedRuns.deployWillFail
              <> Crashed NoDeploymentUrl s').
Proof.
  split; [reflexivity|]; split; [vm_compute; reflexivity|].
  split; [eexists; reflexivity | discriminate].
Qed.

(** [C3] A deploy whose output holds no URL, and a deploy whose command
    fails. *)
Lemma C3_no_url_run :
  (exists s',
      runDeploy (readyToDeploy (lit "Build failed: nothing was published"))
      = Crashed NoDeploymentUrl s' /\
      deployedUrl (ctx s') = None) /\
  (exists s',
      runDeploy ScriptedRuns.deployWillFail = Threw (lit "exit 1") s' /\
      deployedUrl (ctx s') = None).
Proof.
  split.
  - destruct (proj1 (@C3_no_url_crashes_after_exit_0_and_rejection_is_thrown
                       Script scripted
                       (readyToDeploy (lit "Build failed: nothing was published"))
                       (lit "Build failed: nothing was published")
                       (deployPrints (lit "Build failed: nothing was published"))))
      as [s' [R [_ [U _]]]].
    + apply readyToDeploy_output.
    + apply exec_deployedUrl_none; vm_compute; reflexivity.
    + exists s'; split; [exact R | exact U].
  - destruct (proj2 (@C3_no_url_crashes_after_exit_0_and_rejection_is_thrown
                       Script scripted ScriptedRuns.deployWillFail []
                       ScriptedRuns.deployFails)
                    acme (lit "exit 1"))
      as [s' [R [_ [U _]]]];
      [discriminate | reflexivity | discriminate | reflexivity |].
    exists s'; split; [exact R | exact U].
Defined.

(** [C4] The name of an existing sibling, and the working directory itself. *)
Lemma C4_conflict_and_cwd_runs :
  setupProjectDirectory undecided
    (start undecided (withEntries [lit "/work/foo"]))
  = Crashed (DirectoryConflict (lit "foo"))
      (start undecided (withEntries [lit "/work/foo"])) /\
  (forall msg s',
      setupProjectDirectory inPlace (start inPlace (withEntries [lit "/work"]))
      <> Crashed msg s').
Proof.
  split.
  - apply (proj1 (@C4_directory_conflict_unless_cwd Script scripted undecided
                    (start undecided (withEntries [lit "/work/foo"])))).
    + vm_compute; discriminate.
    + reflexivity.
  - apply (proj2 (@C4_directory_conflict_unless_cwd Script scripted inPlace
                    (start inPlace (withEntries [lit "/work"])))).
    reflexivity.
Defined.

(** [C5] Version control requested where the tool is not installed. *)
Lemma C5_git_unavailable_run :
  exists s',
    offerGit (start withGit bare) = Returned tt s' /\
    git (args (ctx s')) = Some false /\
    commands (trace s') = [lit "git -v"].
Proof.
  destruct (@C5_git_unavailable_disables_git Script scripted
              (start withGit bare) (lit "command not found") bare)
    as [s' [R [_ [G [T _]]]]]; try reflexivity.
  exists s'; repeat split; [exact R | exact G |].
  unfold performed in T; simpl in T; now rewrite T.
Defined.

(** [C7] The configured branch cannot be read and the plain initialization
    succeeds. *)
Lemma C7_plain_init_run :
  initializeGit projectPath (start withGit freshWorld)
  = Returned tt
      (record (Ran (gitInit projectPath)) freshWorld
         (record (Ran (gitConfig projectPath)) freshWorld
                 (start withGit freshWorld))).
Proof.
  apply (proj1 (proj2
           (@C7_plain_init_once_and_its_error_propagates Script scripted projectPath
              (start withGit freshWorld)
              (record (Ran (gitConfig projectPath)) freshWorld
                      (start withGit freshWorld))
              (lit "command not found") eq_refl))
           (lit "Initialized empty Git repository") freshWorld).
  reflexivity.
Defined.

(** [C8] A listing of one account. *)
Lemma C8_single_account_run :
  exists s',
    chooseAccount (start deploying (deployPrints [])) = Returned tt s' /\
    account (ctx s') = Some acme.
Proof.
  destruct (@C8_reverse_lookup_never_fails Script scripted
              (start deploying (deployPrints []))
              [(lit "acme", lit "acct_1")] (deployPrints []) eq_refl)
    as [s' [R [A _]]].
  exists s'; split; [exact R | exact A].
Defined.

(** [C9] Two runs on a directory that is a repository. *)
Lemma C9_versioned_runs :
  exists s2,
    bind offerGit (fun _ => offerGit) (start withGit versionedWorld)
    = Returned tt s2 /\
    ctx s2 = ctx (start withGit versionedWorld) /\
    commands (trace s2) =
      [lit "git -v"; lit "git status"; lit "git -v"; lit "git status"].
Proof.
  assert (versioned projectPath versionedWorld versionedWorld) as V.
  { exists (lit "git version 2.39.2"), versionedWorld, (lit "On branch main").
    repeat split; reflexivity. }
  destruct (proj2 (@C9_versioned_directory_never_initialized Script scripted
                     (start withGit versionedWorld)
                     versionedWorld versionedWorld V V))
    as [s2 [R [C [T _]]]].
  exists s2; repeat split; [exact R | exact C |].
  unfold performed in T; simpl in T; exact T.
Defined.

(** [C10] A host of three labels, and the URL a deploy has stored. *)
Lemma C10_short_host_and_stored_url_runs :
  canonicalUrl (lit "https://foo.pages.dev") = Some (lit "https://foo.pages.dev")
  /\
  (forall s',
      runDeploy (readyToDeploy (lit "https://abcd1234.foo.pages.dev"))
      = Returned tt s' ->
      exists d, deployedUrl (ctx s') = Some d /\ canonicalUrl d = Some d).
Proof.
  split.
  - apply (proj1 (proj2 (@C10_canonical_url_idempotent Script scripted))
             (lit "foo.pages.dev")); [reflexivity | vm_compute; lia].
  - intros s'.
    apply (proj2 (proj2 (@C10_canonical_url_idempotent Script scripted))
             (readyToDeploy (lit "https://abcd1234.foo.pages.dev")) s'
             (lit "https://abcd1234.foo.pages.dev")
             (deployPrints (lit "https://abcd1234.foo.pages.dev"))).
    apply readyToDeploy_output.
Defined.

End Runs.

(** * Further properties of the steps *)

Import Steps.

Section AccountFacts.

Context {World : Type} {E : External World}.

Lemma str_eqb_refl (a : str) : str_eqb a a = true.
Proof. now apply str_eqb_eq. Qed.

(** In a listing with one entry per name, every entry is what the lookup of
    its name gives. *)
Lemma getAccount_NoDup (accounts : Accounts) (n i : str) :
  NoDup (map fst accounts) -> In (n, i) accounts ->
  getAccount accounts n = Some i.
Proof.
  induction accounts as [|[k v] rest IH]; simpl; [contradiction|].
  intros Hnd [H|H]; inversion Hnd as [|? ? Hk Hrest]; subst.
  - injection H as -> ->; now rewrite str_eqb_refl.
  - destruct (str_eqb k n) eqn:Hkn; [|now apply IH].
    apply str_eqb_eq in Hkn; subst k.
    destruct Hk; change n with (fst (n, i)); now apply in_map.
Qed.

(** [X1] With exactly one account listed, [chooseAccount] binds that account,
    id and name, and does not ask the operator: the listing is its only
    call. *)
Theorem X1_single_account_selected_without_prompt
        (s : State World) (n i : str) (w1 : World) :
  accountList (world s) = (Some [(n, i)], w1) ->
  chooseAccount s =
  Returned tt
    {| ctx := set_account {| account_id := i; account_name := Some n |} (ctx s);
       world := w1;
       trace := trace s ++ [Listed] |}.
Proof.
  intros H; unfold chooseAccount, bind, listAccounts; rewrite H; simpl.
  unfold findAccountName; simpl; now rewrite !str_eqb_refl.
Qed.

(** [X2] With no account or several accounts listed, [chooseAccount] asks
    once, offering the entries of the listing in their order, and binds the
    answer as the account id, whatever it is.  When the names are distinct
    and the answer is the id of a listed account, the bound name is defined
    and is a name the listing maps to that id. *)
Theorem X2_operator_choice_is_bound
        (s : State World) (accounts : Accounts) (w1 w2 : World) (chosen : str) :
  accountList (world s) = (Some accounts, w1) ->
  length accounts <> 1 ->
  select accountQuestion accounts w1 = (chosen, w2) ->
  exists name,
    chooseAccount s =
    Returned tt
      {| ctx := set_account {| account_id := chosen; account_name := name |}
                            (ctx s);
         world := w2;
         trace := trace s ++ [Listed; Chose accountQuestion accounts] |} /\
    (NoDup (map fst accounts) -> In chosen (map snd accounts) ->
     exists n, name = Some n /\ In (n, chosen) accounts).
Proof.
  intros Hl Hlen Hs; exists (findAccountName accounts chosen); split.
  - unfold chooseAccount, bind at 1, listAccounts; rewrite Hl.
    assert (forall x : M World str,
               match accounts with
               | [(_, i)] => ret i
               | _ => x
               end = x) as ->
      by (intros x; destruct accounts as [|[n i] [|p r]];
          simpl in Hlen; congruence).
    unfold bind, selectInput, modifyCtx, accountQuestion in *; simpl.
    rewrite Hs; simpl; now rewrite <- app_assoc.
  - intros Hnd Hin; apply in_map_iff in Hin as [[n i] [Hi Hin]].
    simpl in Hi; subst i.
    destruct (findAccountName accounts chosen) as [m|] eqn:F.
    + exists m; split; [reflexivity|].
      now apply getAccount_in, findAccountName_some.
    + unfold findAccountName in F.
      assert (In n (map fst accounts)) as Hk
        by (change n with (fst (n, chosen)); now apply in_map).
      pose proof (find_none _ _ F n Hk) as Hn; cbv beta in Hn.
      rewrite (@getAccount_NoDup accounts n chosen Hnd Hin), str_eqb_refl in Hn.
      discriminate.
Qed.

(** [X3] When the account listing fails, the failure goes through
    [chooseAccount] and [offerToDeploy] uncaught: [offerToDeploy] throws, the
    deploy flag it has just set stays true, no account is bound, and no
    choice is asked. *)
Theorem X3_listing_failure_propagates
        (s : State World) (w1 w2 w3 : World) :
  confirm (deployQuestion (ctx s)) (world s) = (true, w1) ->
  login w1 = (true, w2) ->
  accountList w2 = (None, w3) ->
  exists e s',
    offerToDeploy s = Threw e s' /\
    ctx s' = set_deploy (Some true) (ctx s) /\
    world s' = w3 /\
    performed (trace s) (trace s') =
      [Asked (deployQuestion (ctx s)); Login; Listed].
Proof.
  intros Hc Hl Ha.
  unfold offerToDeploy, chooseAccount, bind, getCtx, confirmInput, modifyCtx,
    wranglerLogin, listAccounts, deployQuestion in *; simpl.
  rewrite Hc; simpl; rewrite Hl; simpl; rewrite Ha; simpl.
  do 2 eexists; split; [reflexivity|]; simpl.
  rewrite <- !app_assoc, performed_app; repeat split; reflexivity.
Qed.

End AccountFacts.

Section DeployMore.

Context {World : Type} {E : External World}.

(** [X4] When the operator declines the deploy, [offerToDeploy] neither logs
    in nor lists the accounts, and the [runDeploy] that follows returns at
    once: the confirmation is the only call of both steps, the deployed URL
    stays undefined, and the summary neither polls nor opens the browser. *)
Theorem X4_declined_deploy_does_nothing
        (s : State World) (w1 : World) (p : Palette) (poll : str -> bool) :
  confirm (deployQuestion (ctx s)) (world s) = (false, w1) ->
  deployedUrl (ctx s) = None ->
  exists s',
    bind offerToDeploy (fun _ => runDeploy) s = Returned tt s' /\
    ctx s' = set_deploy (Some false) (ctx s) /\
    world s' = w1 /\
    performed (trace s) (trace s') = [Asked (deployQuestion (ctx s))] /\
    deployedUrl (ctx s') = None /\
    (forall u, ~ In (Poll u) (printSummary p poll (ctx s')) /\
               ~ In (OpenInBrowser u) (printSummary p poll (ctx s'))).
Proof.
  intros Hc Hu.
  unfold offerToDeploy, runDeploy, bind, getCtx, confirmInput, modifyCtx,
    deployQuestion in *; simpl.
  rewrite Hc; simpl.
  eexists; split; [reflexivity|]; simpl.
  rewrite performed_app; repeat split; try reflexivity; try assumption;
    unfold printSummary, truthyUrl; simpl; rewrite Hu; simpl;
    intros H; repeat (destruct H as [H|H]; try discriminate H); exact H.
Qed.

(** [X5] When the operator accepts the deploy, the login succeeds and the
    account step ends with a non-empty id, the [runDeploy] that follows runs
    exactly one command: the deploy command, in the project directory, with
    that id as [CLOUDFLARE_ACCOUNT_ID]; it never crashes for a missing
    account. *)
Theorem X5_accepted_deploy_runs_with_chosen_account
        (s : State World) (w1 w2 w3 : World) (accounts : Accounts) :
  confirm (deployQuestion (ctx s)) (world s) = (true, w1) ->
  login w1 = (true, w2) ->
  accountList w2 = (Some accounts, w3) ->
  chosenId accounts w3 <> [] ->
  exists s1,
    offerToDeploy s = Returned tt s1 /\
    world s1 = afterChoice accounts w3 /\
    performed (trace s1) (trace (outcomeState (runDeploy s1))) =
      [Ran {| cmd_line := deployCmd (ctx s);
              cmd_cwd := Some (project_path (project (ctx s)));
              cmd_env := [(lit "CLOUDFLARE_ACCOUNT_ID",
                           chosenId accounts w3)] |}] /\
    (forall s', runDeploy s1 <> Crashed MissingAccount s').
Proof.
  intros Hc Hl Ha Hid.
  assert (exists s1,
             offerToDeploy s = Returned tt s1 /\
             world s1 = afterChoice accounts w3 /\
             ctx s1 = set_account
                        {| account_id := chosenId accounts w3;
                           account_name :=
                             findAccountName accounts (chosenId accounts w3) |}
                        (set_deploy (Some true) (ctx s)))
    as [s1 [R [W C]]].
  { unfold offerToDeploy, chooseAccount, bind, getCtx, confirmInput, modifyCtx,
      wranglerLogin, listAccounts, deployQuestion in *; simpl.
    rewrite Hc; simpl; rewrite Hl; simpl; rewrite Ha; simpl.
    unfold chosenId, afterChoice, accountQuestion.
    destruct accounts as [|[n i] [|q r]]; unfold selectInput, ret; simpl;
      try destruct (select _ _ _) as [v w]; simpl;
      eexists; repeat split; reflexivity. }
  exists s1; split; [exact R|]; split; [exact W|].
  unfold runDeploy; rewrite bind_getCtx, C; simpl.
  destruct (chosenId accounts w3) as [|c0 cs] eqn:Hch; [congruence|].
  unfold bind, runCommand; simpl.
  destruct (spawn _ (world s1)) as [[out|e] w]; simpl.
  - destruct (exec deployedUrlRegex out) as [m|]; simpl.
    + destruct (endsWith m (lit ".pages.dev")); simpl;
        [destruct (removeSha1 m); simpl|];
        (split; [now rewrite performed_app | discriminate]).
    + split; [now rewrite performed_app|].
      intros s' H; injection H as H _; discriminate H.
  - split; [now rewrite performed_app | discriminate].
Qed.

(** [X6] [runDeploy] reaches the outside world only when a deploy is due and
    an account with a non-empty id is bound.  When the deploy was declined
    it returns in the state it was given; when no account is bound, or its
    id is empty, it crashes in that state; and in every other case the
    deploy command is the one command it runs, however the step ends. *)
Theorem X6_runDeploy_runs_at_most_the_deploy_command (s : State World) :
  (deploy (args (ctx s)) = Some false -> runDeploy s = Returned tt s) /\
  (deploy (args (ctx s)) <> Some false ->
   (account (ctx s) = None \/
    exists a, account (ctx s) = Some a /\ account_id a = []) ->
   runDeploy s = Crashed MissingAccount s) /\
  (forall a,
      deploy (args (ctx s)) <> Some false ->
      account (ctx s) = Some a -> account_id a <> [] ->
      performed (trace s) (trace (outcomeState (runDeploy s))) =
        [Ran (deployCommandOf (ctx s) a)]).
Proof.
  split; [|split].
  - intros H; unfold runDeploy; now rewrite bind_getCtx, H.
  - intros Hd Ha; unfold runDeploy; rewrite bind_getCtx.
    destruct (deploy (args (ctx s))) as [[|]|]; try congruence;
      destruct Ha as [-> | [a [-> ->]]]; reflexivity.
  - intros a Hd Ha Hi; unfold runDeploy; rewrite bind_getCtx, Ha.
    assert (forall (x y : M World unit),
               match deploy (args (ctx s)) with
               | Some false => x
               | _ => y
               end = y) as -> by (destruct (deploy _) as [[|]|]; congruence).
    unfold deployCommandOf.
    destruct (account_id a) as [|i0 i]; [congruence|].
    unfold bind, runCommand; simpl.
    destruct (spawn _ (world s)) as [[out|e] w]; simpl;
      [|now rewrite performed_app].
    destruct (exec deployedUrlRegex out) as [m|]; simpl;
      [|now rewrite performed_app].
    destruct (endsWith m (lit ".pages.dev")); simpl;
      [destruct (removeSha1 m); simpl|]; now rewrite performed_app.
Qed.

(** [X7] When the deploy command is rejected, [runDeploy] throws the error
    of the command and leaves the context as it was: no deployed URL is
    stored. *)
Theorem X7_deploy_command_failure_propagates
        (s : State World) (a : Account) (e : str) (w : World) :
  deploy (args (ctx s)) <> Some false ->
  account (ctx s) = Some a ->
  account_id a <> [] ->
  spawn (deployCommandOf (ctx s) a) (world s) = (Rejected e, w) ->
  runDeploy s = Threw e (record (Ran (deployCommandOf (ctx s) a)) w s) /\
  ctx (outcomeState (runDeploy s)) = ctx s.
Proof.
  intros Hd Ha Hi Hs.
  assert (runDeploy s = Threw e (record (Ran (deployCommandOf (ctx s) a)) w s))
    as R.
  { unfold runDeploy; rewrite bind_getCtx, Ha.
    assert (forall (x y : M World unit),
               match deploy (args (ctx s)) with
               | Some false => x
               | _ => y
               end = y) as -> by (destruct (deploy _) as [[|]|]; congruence).
    unfold deployCommandOf in *.
    destruct (account_id a) as [|i0 i]; [congruence|].
    now erewrite bind_threw by (apply runCommand_rejected; exact Hs). }
  split; [exact R | now rewrite R].
Qed.

(** [X8] Once the deploy command has exited successfully, [runDeploy]
    returns exactly when some part of the output is a deployment URL, and
    the URL it then stores starts with [https://]; otherwise it crashes.  It
    never throws: the host it cuts out of the match is always defined. *)
Theorem X8_runDeploy_returns_iff_output_has_url
        (s : State World) (output : str) (w : World) :
  deployOutput s output w ->
  ((exists pre u post, output = pre ++ u ++ post /\ isDeploymentUrl u) <->
   (exists s' rest,
       runDeploy s = Returned tt s' /\
       deployedUrl (ctx s') = Some (lit "https://" ++ rest))) /\
  (forall e s', runDeploy s <> Threw e s').
Proof.
  intros [Hd [a [Ha [Hi Hs]]]].
  rewrite (runDeploy_spec s Hd Ha Hi Hs); cbv zeta.
  destruct (exec deployedUrlRegex output) as [m|] eqn:Hm.
  - destruct (exec_deployedUrl_https _ Hm) as [rest ->].
    destruct (canonicalUrl_https_idem rest) as [r [H1 _]]; rewrite H1.
    split; [|discriminate]; split.
    + intros _; eexists; exists r; split; reflexivity.
    + intros _; apply exec_sound in Hm as [Hmm [pre [post ->]]].
      exists pre, (lit "https://" ++ rest), post; split; [reflexivity|].
      now apply Matches_deployedUrlRegex.
  - split; [|discriminate]; split.
    + intros [pre [u [post [Ho Hu]]]].
      now destruct (proj1 (exec_deployedUrl_none output) Hm pre u post Ho).
    + intros [s' [rest [H _]]]; discriminate H.
Qed.

End DeployMore.

(** ** What the pattern extracts *)

Section ExtractFacts.

Lemma run_word_app (w t : str) (k : str -> option str) :
  run (word w) (w ++ t) k = k t.
Proof.
  induction w as [|c w IH]; simpl; [reflexivity|].
  now rewrite Ascii.eqb_refl.
Qed.

Lemma run_word_fail (w s : str) (k : str -> option str) :
  prefixb w s = false -> run (word w) s k = None.
Proof.
  revert s; induction w as [|c w IH]; intros s; simpl; [discriminate|].
  destruct s as [|d s]; [reflexivity|].
  destruct (Ascii.eqb c d); simpl; [apply IH | reflexivity].
Qed.

Lemma prefixb_app_long (p a b : str) :
  length p <= length a -> prefixb p (a ++ b) = prefixb p a.
Proof.
  revert a; induction p as [|x p IH]; intros a H; [reflexivity|].
  destruct a as [|y a]; simpl in *; [lia|].
  rewrite IH by lia; reflexivity.
Qed.

(** Where no [https://] begins, the pattern does not match. *)
Lemma match_here_no_scheme (s : str) :
  prefixb (lit "https://") s = false -> match_here deployedUrlRegex s = None.
Proof.
  intros H; unfold match_here, deployedUrlRegex.
  change (run (Cat (word (lit "https://")) ?r) s ?k)
    with (run (word (lit "https://")) s (fun s1 => run r s1 k)).
  now rewrite run_word_fail.
Qed.

(** The search passes over a text in which no [https://] begins. *)
Lemma exec_skip (pre t : str) :
  noSchemeWithin pre = true ->
  exec deployedUrlRegex (pre ++ lit "https://" ++ t)
  = exec deployedUrlRegex (lit "https://" ++ t).
Proof.
  unfold noSchemeWithin; rewrite negb_true_iff.
  induction pre as [|c pre IH]; [reflexivity|]; intros H.
  simpl in H; apply orb_false_iff in H as [Hc Hp].
  rewrite exec_unfold, match_here_no_scheme; [now apply IH|].
  replace ((c :: pre) ++ lit "https://" ++ t)
    with (((c :: pre) ++ lit "https:/") ++ (lit "/" ++ t))
    by (now rewrite <- app_assoc).
  rewrite prefixb_app_long; [exact Hc|].
  rewrite length_app; simpl; lia.
Qed.

(** Greedy repetition: more admissible code units before a text on which
    the repetition succeeds do not change the result. *)
Lemma star_prepend (a : atom) (u s : str) (k : str -> option str) (r : str) :
  forallb (atom_ok a) u = true ->
  star a s k = Some r -> star a (u ++ s) k = Some r.
Proof.
  induction u as [|c u IH]; simpl; [auto|]; intros Hu Hs.
  apply andb_true_iff in Hu as [Hc Hu]; now rewrite Hc, IH.
Qed.

(** Greedy repetition gives back every code unit of [u] when nothing
    shorter lets the rest of the pattern match. *)
Lemma star_backtrack (a : atom) (u rest : str) (k : str -> option str) :
  forallb (atom_ok a) u = true ->
  star a rest k = None ->
  (forall v w, u = v ++ w -> v <> [] -> w <> [] -> k (w ++ rest) = None) ->
  star a (u ++ rest) k = k (u ++ rest).
Proof.
  induction u as [|c u IH]; simpl; intros Hu Hr Hk.
  - rewrite Hr; symmetry; now apply (star_fallback a).
  - apply andb_true_iff in Hu as [Hc Hu]; rewrite Hc.
    rewrite IH; try assumption.
    + destruct u as [|d u].
      * simpl; now rewrite (@star_fallback a rest k Hr).
      * now rewrite (Hk [c] (d :: u) eq_refl) by discriminate.
    + intros v w -> Hv Hw; apply (Hk (c :: v) w eq_refl); [discriminate | exact Hw].
Qed.

Lemma afterHost_line_end (post : str) :
  endsLine post = true -> star Dot post afterHost = None.
Proof.
  destruct post as [|c post]; [reflexivity|].
  cbn [endsLine star atom_ok]; intros H; rewrite H; cbn [negb].
  unfold afterHost, suffixPattern; cbn [run atom_ok].
  destruct (Ascii.eqb "." c) eqn:Hc; [|reflexivity].
  apply Ascii.eqb_eq in Hc; subst c; discriminate H.
Qed.

Lemma star_suffix (suf post : str) :
  suf = lit ".pages.dev" \/ suf = lit ".workers.dev" ->
  endsLine post = true ->
  star Dot (suf ++ post) afterHost = Some post.
Proof.
  intros Hs Hp.
  rewrite star_backtrack.
  - destruct Hs as [-> | ->]; reflexivity.
  - destruct Hs as [-> | ->]; reflexivity.
  - now apply afterHost_line_end.
  - intros v w H Hv Hw.
    destruct v as [|c0 v]; [congruence|].
    destruct Hs as [-> | ->]; cbv in H;
      repeat (injection H as _ H;
              destruct v as [|? v];
              [simpl in H; subst w; try reflexivity; congruence
              |simpl in H; try discriminate H]).
Qed.

(** The match found where an [https://] begins a single-line text that ends
    with one of the two suffixes and with its line: all of that text. *)
Lemma match_here_url_ending_line (x suf post : str) :
  x <> [] -> singleLine x = true ->
  suf = lit ".pages.dev" \/ suf = lit ".workers.dev" ->
  endsLine post = true ->
  match_here deployedUrlRegex (lit "https://" ++ x ++ suf ++ post)
  = Some (lit "https://" ++ x ++ suf).
Proof.
  intros Hx Hl Hs Hp; unfold match_here.
  assert (run deployedUrlRegex (lit "https://" ++ x ++ suf ++ post)
              (fun rest => Some rest) = Some post) as ->.
  { unfold deployedUrlRegex.
    change (run (Cat (word (lit "https://")) ?r) ?s ?k)
      with (run (word (lit "https://")) s (fun s1 => run r s1 k)).
    rewrite run_word_app.
    destruct x as [|c x]; [congruence|].
    unfold singleLine in Hl; simpl in Hl.
    apply andb_true_iff in Hl as [Hc Hl].
    change (star Dot (x ++ suf ++ post) afterHost = Some post) || idtac.
    simpl; rewrite Hc.
    apply (star_prepend Dot x _ afterHost Hl).
    now apply star_suffix. }
  replace (lit "https://" ++ x ++ suf ++ post)
    with ((lit "https://" ++ x ++ suf) ++ post)
    by (now rewrite <- !app_assoc).
  rewrite length_app.
  replace (length (lit "https://" ++ x ++ suf) + length post - length post)
    with (length (lit "https://" ++ x ++ suf)) by lia.
  now rewrite firstn_length_app.
Qed.

(** Cutting at a one-unit separator distributes over a text that holds the
    separator. *)
Lemma split_go_app_sep (d : ascii) (a b : str) :
  split_go [d] 0 (a ++ d :: b) = split_go [d] 0 a ++ split_go [d] 0 b.
Proof.
  induction a as [|c a IH]; simpl.
  - now rewrite Ascii.eqb_refl.
  - rewrite andb_true_r; destruct (Ascii.eqb d c); [now rewrite IH|].
    rewrite IH; destruct (split_go [d] 0 a) as [|p ps] eqn:Ha;
      [now destruct (@split_go_nonempty _ _ _ Ha) | reflexivity].
Qed.

Lemma slice_last_3_app2 {A : Type} (l : list A) (a b d : A) :
  l <> [] -> slice_last 3 (l ++ [a; b]) = [last l d; a; b].
Proof.
  intros H; pose proof (app_removelast_last d H) as E.
  set (x := last l d) in *; rewrite E at 1.
  unfold slice_last; rewrite <- app_assoc, !length_app; simpl.
  replace (length (removelast l) + 3 - 3) with (length (removelast l)) by lia.
  now rewrite skipn_length_app.
Qed.

Lemma last_In {A : Type} (l : list A) (d : A) : l <> [] -> In (last l d) l.
Proof.
  intros H; rewrite (app_removelast_last d H) at 2.
  apply in_or_app; right; now left.
Qed.

(** The last labels of a host that ends in [.pages.dev]: what follows the
    last dot of the text before the suffix, and the suffix. *)
Lemma lastLabels_pages (x : str) :
  lastLabels (x ++ lit ".pages.dev")
  = last (split x (lit ".")) [] ++ lit ".pages.dev" /\
  includes (last (split x (lit ".")) []) (lit ".") = false.
Proof.
  change (split x (lit ".")) with (split_go ["."%char] 0 x).
  split.
  - unfold lastLabels.
    change (split (x ++ lit ".pages.dev") (lit "."))
      with (split_go ["."%char] 0 (x ++ "."%char :: lit "pages.dev")).
    rewrite split_go_app_sep.
    change (split_go ["."%char] 0 (lit "pages.dev"))
      with [lit "pages"; lit "dev"].
    rewrite (@slice_last_3_app2 str (split_go ["."%char] 0 x)
               (lit "pages") (lit "dev") [] (@split_go_nonempty _ _ _)).
    reflexivity.
  - pose proof (split_go_pieces_free "."%char x) as F.
    rewrite Forall_forall in F; apply F.
    destruct (split_go ["."%char] 0 x) as [|p ps] eqn:Hx;
      [now destruct (@split_go_nonempty _ _ _ Hx)|].
    apply last_In; discriminate.
Qed.

End ExtractFacts.

(** ** Version control, step by step *)

Section GitFacts.

Context {World : Type} {E : External World}.

(** Case analysis on every answer of the outside world that a step reads. *)
Ltac answers :=
  repeat match goal with
         | G : git (args (ctx ?s)) = _ |- context [git (args (ctx ?s))] =>
             rewrite G; cbn -[lit trim isInit]
         | |- context [spawn ?c ?w] =>
             destruct (spawn c w) as [[?|?] ?]; cbn -[lit trim isInit]
         | |- context [confirm ?o ?w] =>
             destruct (confirm o w) as [[|] ?]; cbn -[lit trim isInit]
         | |- context [includes ?o ?t] =>
             destruct (includes o t); cbn -[lit trim isInit]
         end.

(** Bringing the trace of a final state to the form [trace s ++ events]. *)
Ltac events :=
  cbn -[lit trim isInit performed];
  rewrite <- ?app_assoc; cbn [app];
  rewrite ?performed_app.

(** [X11] [isGitInstalled] and [isInsideGitRepo] never throw and never touch
    the context: each runs its one query and answers with a boolean.  The
    tool counts as installed exactly when [git -v] exits successfully, and a
    directory as inside a repository exactly when [git status] exits
    successfully with an output that lacks the not-a-repository text; a
    failed status query counts as not inside a repository. *)
Theorem X11_git_checks_never_throw (cwd : str) (s : State World) :
  (exists b s',
      isGitInstalled s = Returned b s' /\
      ctx s' = ctx s /\
      performed (trace s) (trace s') = [Ran gitVersion] /\
      (b = true <->
       exists o w, spawn gitVersion (world s) = (Resolved o, w))) /\
  (exists b s',
      isInsideGitRepo cwd s = Returned b s' /\
      ctx s' = ctx s /\
      performed (trace s) (trace s') = [Ran (gitStatus cwd)] /\
      (b = true <->
       exists o w,
         spawn (gitStatus cwd) (world s) = (Resolved o, w) /\
         includes o (lit "not a git repository") = false)).
Proof.
  split.
  - rewrite isGitInstalled_spec.
    destruct (spawn gitVersion (world s)) as [[o|e] w];
      do 2 eexists; (split; [reflexivity|]); events;
      (repeat split; try reflexivity).
    + intros _; now exists o, w.
    + discriminate.
    + intros [o' [w' H]]; discriminate H.
  - rewrite isInsideGitRepo_spec.
    destruct (spawn (gitStatus cwd) (world s)) as [[o|e] w];
      do 2 eexists; (split; [reflexivity|]); events;
      (repeat split; try reflexivity).
    + intros H; exists o, w; split; [reflexivity|].
      now apply negb_true_iff in H.
    + intros [o' [w' [H1 H2]]]; injection H1 as <- <-; now rewrite H2.
    + discriminate.
    + intros [o' [w' [H _]]]; discriminate H.
Qed.

(** [X12] However [offerGit] ends, it has asked the operator at most one
    confirmation, and none when [args.git] was decided before the step; it
    never crashes, and it never changes the context beyond [args.git]. *)
Theorem X12_offerGit_asks_at_most_once (s : State World) :
  let s' := outcomeState (offerGit s) in
  prompts (performed (trace s) (trace s')) <= 1 /\
  (git (args (ctx s)) <> None ->
   prompts (performed (trace s) (trace s')) = 0) /\
  (forall msg st, offerGit s <> Crashed msg st) /\
  (ctx s' = ctx s \/ exists g, ctx s' = set_git (Some g) (ctx s)).
Proof.
  cbv zeta.
  unfold offerGit, isGitInstalled, isInsideGitRepo, initializeGit,
    initWithBranch, initPlain, try_catch, bind, getCtx, runCommand,
    updateStatus, confirmInput, modifyCtx, ret, nullish.
  cbn -[lit trim isInit].
  destruct (spawn _ (world s)) as [[o1|e1] w1]; cbn -[lit trim isInit].
  - destruct (spawn _ w1) as [[o2|e2] w2]; cbn -[lit trim isInit];
      [destruct (includes o2 _); cbn -[lit trim isInit]|];
      try (destruct (git (args (ctx s))) as [[|]|] eqn:G;
           cbn -[lit trim isInit]; answers);
      events; cbn;
      (repeat split; try lia; try congruence; try discriminate);
      try first [left; reflexivity | right; eexists; reflexivity].
  - destruct (truthy (git (args (ctx s)))); events; cbn;
      (repeat split; try lia; try congruence; try discriminate);
      right; eexists; reflexivity.
Qed.

(** [X13] In a directory that is not under version control, with the tool
    installed, [offerGit] obeys the decision: the flag given before the step,
    or else the operator's answer to the one confirmation, which it records
    in [args.git].  However the step ends, a repository-initialization
    command has been run exactly when the decision was yes. *)
Theorem X13_offerGit_obeys_the_decision (s : State World) (w2 : World) :
  notVersioned (project_path (project (ctx s))) (world s) w2 ->
  let decision :=
    match git (args (ctx s)) with
    | Some b => b
    | None => fst (confirm gitQuestion w2)
    end in
  let s' := outcomeState (offerGit s) in
  git (args (ctx s')) = Some decision /\
  existsb isInit (commands (performed (trace s) (trace s'))) = decision /\
  prompts (performed (trace s) (trace s')) =
    match git (args (ctx s)) with
    | Some _ => 0
    | None => 1
    end.
Proof.
  intros [o1 [w1 [H1 H2]]]; cbv zeta.
  unfold gitVersion, gitStatus, gitQuestion in *.
  unfold offerGit, isGitInstalled, isInsideGitRepo, initializeGit,
    initWithBranch, initPlain, try_catch, bind, getCtx, runCommand,
    updateStatus, confirmInput, modifyCtx, ret, nullish.
  cbn -[lit trim isInit]; rewrite H1; cbn -[lit trim isInit].
  destruct H2 as [[e H2] | [o2 [H2 H3]]]; rewrite H2; cbn -[lit trim isInit];
    try (rewrite H3; cbn -[lit trim isInit]);
    destruct (git (args (ctx s))) as [[|]|] eqn:G; cbn -[lit trim isInit];
    answers; events; cbv -[trim]; repeat split; try assumption.
Qed.

(** [X14] However [initializeGit] ends, it has run two or three commands, all
    in the given directory: the first reads the configured default branch,
    and the last is a repository initialization.  It never crashes and never
    touches the context. *)
Theorem X14_initializeGit_ends_with_an_init (cwd : str) (s : State World) :
  let s' := outcomeState (initializeGit cwd s) in
  let ran := performed (trace s) (trace s') in
  hd_error (commands ran) = Some (lit "git config --get init.defaultBranch") /\
  isInit (last (commands ran) []) = true /\
  2 <= length (commands ran) <= 3 /\
  Forall (fun e => exists c, e = Ran c /\ cmd_cwd c = Some cwd) ran /\
  ctx s' = ctx s /\
  (forall msg st, initializeGit cwd s <> Crashed msg st).
Proof.
  cbv zeta.
  unfold initializeGit, initWithBranch, initPlain, try_catch, bind,
    runCommand, ret, nullish.
  cbn -[lit trim isInit]; answers; events;
    (repeat split;
     try reflexivity; try (cbn; lia); try discriminate;
     try (cbv -[trim]; reflexivity);
     try (repeat constructor; eexists; split; reflexivity)).
Qed.

(** Trimming a line: a name whose first and last code units are no white
    space, followed by a line feed, gives the name. *)
Lemma trim_line (name : str) :
  isWhiteSpace (hd " "%char name) = false ->
  isWhiteSpace (last name " "%char) = false ->
  trim (name ++ ["010"%char]) = name.
Proof.
  intros Hh Hl; unfold trim.
  destruct name as [|c name]; [discriminate Hh|].
  simpl in Hh; simpl app; cbn [trimStart]; rewrite Hh.
  change (c :: name ++ ["010"%char]) with ((c :: name) ++ ["010"%char]).
  rewrite rev_app_distr; cbn [rev app trimStart].
  change (isWhiteSpace "010") with true; cbv iota.
  assert (forall l : str, l <> [] -> isWhiteSpace (last l " "%char) = false ->
                          trimStart (rev l) = rev l) as T.
  { intros l Hn Hw; rewrite (app_removelast_last " "%char Hn).
    rewrite rev_app_distr; cbn [rev app trimStart].
    rewrite (app_removelast_last " "%char Hn) in Hw.
    rewrite last_last in Hw; now rewrite Hw. }
  change (rev name ++ [c]) with (rev (c :: name)).
  rewrite (T (c :: name)) by (assumption || discriminate).
  apply rev_involutive.
Qed.

(** [X15] When the configuration query prints a branch name on a line and the
    tool accepts it, [initializeGit] returns after two commands: the query
    and the initialization with that branch name.  The plain [git init] is
    not run. *)
Theorem X15_configured_branch_is_requested
        (cwd name : str) (s : State World) (w1 w2 : World) (o2 : str) :
  isWhiteSpace (hd " "%char name) = false ->
  isWhiteSpace (last name " "%char) = false ->
  spawn (gitConfig cwd) (world s) = (Resolved (name ++ ["010"%char]), w1) ->
  spawn (gitInitBranch cwd name) w1 = (Resolved o2, w2) ->
  exists s',
    initializeGit cwd s = Returned tt s' /\
    world s' = w2 /\
    commands (performed (trace s) (trace s')) =
      [lit "git config --get init.defaultBranch";
       lit "git init --initial-branch " ++ name].
Proof.
  intros Hh Hl H1 H2.
  unfold gitConfig, gitInitBranch in *.
  unfold initializeGit, initWithBranch, try_catch, bind, runCommand, ret,
    nullish.
  cbn -[lit trim]; rewrite H1; cbn -[lit trim].
  rewrite trim_line by assumption; rewrite H2; cbn -[lit trim].
  eexists; split; [reflexivity|]; events; split; reflexivity.
Qed.

(** [X16] When the version-control tool is unavailable, whatever [args.git]
    was, [offerGit] sets it to false and the commit step that follows runs
    nothing: [git -v] is the only command of both steps. *)
Theorem X16_no_tool_no_commit
        (runCommands : option str -> list CommandSpec -> M World unit)
        (s : State World) (e : str) (w : World) :
  spawn gitVersion (world s) = (Rejected e, w) ->
  exists s',
    bind offerGit (fun _ => gitCommit runCommands) s = Returned tt s' /\
    git (args (ctx s')) = Some false /\
    world s' = w /\
    commands (performed (trace s) (trace s')) = [lit "git -v"].
Proof.
  intros H; unfold gitVersion in H.
  unfold gitCommit, offerGit, isGitInstalled, try_catch, bind, getCtx,
    runCommand, updateStatus, modifyCtx, ret.
  cbn -[lit]; rewrite H; cbn -[lit].
  destruct (truthy (git (args (ctx s)))); cbn -[lit];
    (eexists; split; [reflexivity|]); events; repeat split; reflexivity.
Qed.

(** [X17] On a directory already under version control [offerGit] leaves
    [args.git] as it was, so the commit step that follows hands its two
    commands to [runCommands] exactly when the flag was given as true before
    the steps; with the flag false or undecided nothing is committed. *)
Theorem X17_commit_on_versioned_directory_follows_the_flag
        (runCommands : option str -> list CommandSpec -> M World unit)
        (s : State World) (w' : World) :
  versioned (project_path (project (ctx s))) (world s) w' ->
  exists w1,
    bind offerGit (fun _ => gitCommit runCommands) s =
    if truthy (git (args (ctx s)))
    then runCommands (Some (project_path (project (ctx s))))
           [Line (lit "git add .");
            Argv [lit "git"; lit "commit"; lit "-m";
                  lit "Initial commit (by Create-Cloudflare CLI)"]]
           (afterQueries s w1 w')
    else Returned tt (afterQueries s w1 w').
Proof.
  intros V; destruct (offerGit_versioned s V) as [o1 [w1 [_ R]]].
  exists w1; erewrite bind_returned by exact R.
  unfold gitCommit; rewrite bind_getCtx; cbn -[lit].
  now destruct (truthy (git (args (ctx s)))).
Qed.

(** [X18] [setupProjectDirectory] creates and enters the parent of the
    resolved path and nothing else: however it ends, the directories it has
    made and entered are a prefix of that one creation and that one change,
    and the context is untouched.  When it returns, both were done, and the
    result is the leaf name and the resolved path. *)
Theorem X18_setupProjectDirectory_prepares_the_parent
        (a : PagesGeneratorArgs) (s : State World) :
  let path := path_resolve (world s) (projectName a) in
  let dir := path_dirname path in
  let s' := outcomeState (setupProjectDirectory a s) in
  ctx s' = ctx s /\
  (exists k, performed (trace s) (trace s') =
             firstn k [MadeDir dir; ChangedDir dir]) /\
  (forall r st,
      setupProjectDirectory a s = Returned r st ->
      r = (path_basename path, path) /\
      performed (trace s) (trace st) = [MadeDir dir; ChangedDir dir]).
Proof.
  cbv zeta; unfold setupProjectDirectory, crash, bind, mkdirSync, chdir, ret.
  assert (performed (trace s) (trace s) = []) as P0
    by (unfold performed; now rewrite skipn_all).
  destruct (negb _ && _); cbn -[lit].
  - split; [reflexivity|]; split; [now exists 0 | discriminate].
  - destruct (fs_mkdir _ _) as [w1|]; cbn -[lit].
    + destruct (fs_chdir _ _) as [w2|]; cbn -[lit].
      * split; [reflexivity|]; split; [exists 2; events; reflexivity|].
        intros r st H; injection H as <- <-; events; split; reflexivity.
      * split; [reflexivity|]; split; [exists 1; events; reflexivity|].
        discriminate.
    + split; [reflexivity|]; split; [now exists 0 | discriminate].
Qed.

End GitFacts.

(** ** The stored URL, the summary and the credentials command *)

Section StoredUrl.

Context {World : Type} {E : External World}.

(** [X9] When the first [https://] of the deploy output begins a single-line
    text that ends with [.pages.dev] or [.workers.dev] and with its line,
    the pattern extracts all of that text, whatever stands between the
    scheme and the suffix, and [runDeploy] stores what the rewrite makes of
    it. *)
Theorem X9_url_ending_its_line_is_extracted_whole
        (s : State World) (w : World) (pre x suf post : str) :
  deployOutput s (pre ++ lit "https://" ++ x ++ suf ++ post) w ->
  noSchemeWithin pre = true ->
  x <> [] ->
  singleLine x = true ->
  suf = lit ".pages.dev" \/ suf = lit ".workers.dev" ->
  endsLine post = true ->
  exec deployedUrlRegex (pre ++ lit "https://" ++ x ++ suf ++ post)
  = Some (lit "https://" ++ x ++ suf) /\
  exists s',
    runDeploy s = Returned tt s' /\
    deployedUrl (ctx s') = canonicalUrl (lit "https://" ++ x ++ suf).
Proof.
  intros [Hd [a [Ha [Hi Hs]]]] Hpre Hx Hl Hsuf Hpost.
  assert (exec deployedUrlRegex (pre ++ lit "https://" ++ x ++ suf ++ post)
          = Some (lit "https://" ++ x ++ suf)) as Hm.
  { rewrite exec_skip by assumption.
    now rewrite exec_unfold, match_here_url_ending_line. }
  split; [exact Hm|].
  rewrite (runDeploy_spec s Hd Ha Hi Hs); cbv zeta; rewrite Hm.
  destruct (canonicalUrl_https_idem (x ++ suf)) as [r [H1 _]]; rewrite H1.
  eexists; split; reflexivity.
Qed.

(** [X10] For a host that ends in [.pages.dev] and holds no [://], the
    rewrite gives [https://], the text between the last dot before the
    suffix and the suffix, and the suffix: the result has the form
    [https://<label>.pages.dev] with a label free of dots, whatever the
    number of labels the host had. *)
Theorem X10_pages_url_is_reduced_to_one_label (x : str) :
  includes (x ++ lit ".pages.dev") (lit "://") = false ->
  canonicalUrl (lit "https://" ++ x ++ lit ".pages.dev")
  = Some (lit "https://" ++ last (split x (lit ".")) [] ++ lit ".pages.dev") /\
  includes (last (split x (lit ".")) []) (lit ".") = false.
Proof.
  intros H; destruct (lastLabels_pages x) as [L F]; split; [|exact F].
  rewrite canonicalUrl_pages; [now rewrite L | exact H |].
  apply endsWith_spec; now exists x.
Qed.

(** [X19] [printSummary] polls a URL exactly when it is the deployed URL of
    the context and is not empty, and opens the browser on a URL exactly
    when, besides, the poll of it succeeded and [args.open] is true. *)
Theorem X19_summary_polls_and_opens
        (p : Palette) (poll : str -> bool) (c : PagesGeneratorContext)
        (u : str) :
  (In (Poll u) (printSummary p poll c) <->
   deployedUrl c = Some u /\ u <> []) /\
  (In (OpenInBrowser u) (printSummary p poll c) <->
   deployedUrl c = Some u /\ u <> [] /\ poll u = true /\
   open (args c) = true).
Proof.
  unfold printSummary, truthyUrl.
  assert (forall A B C D : Prop, (A -> B) -> (B -> A) -> (C -> D) -> (D -> C) ->
                                 (A <-> B) /\ (C <-> D)) as both by tauto.
  destruct (deployedUrl c) as [[|x r]|]; cbn -[lit join];
    [|destruct (poll (x :: r)) eqn:Hp;
      [destruct (open (args c)) eqn:Ho|]; cbn -[lit join]|];
    apply both;
    try (intros H; repeat (destruct H as [H|H]; try discriminate H);
         try contradiction;
         injection H as <-; repeat split; (assumption || discriminate));
    intros H; decompose [and] H; clear H;
    match goal with
    | H1 : Some _ = Some _ |- _ => injection H1 as <-
    | H1 : None = Some _ |- _ => discriminate H1
    end;
    try congruence;
    repeat (first [left; reflexivity | right]).
Qed.

End StoredUrl.

Section CredentialsFacts.

Import Registries.

Variables number common Config : Type.


End CredentialsFacts.

(** ** Further runs in the scripted world *)

Section MoreRuns.

Import Scripted ScriptedRuns Registries.

(** [X1] A listing of one account. *)
Lemma X1_single_account_run :
  chooseAccount (start deploying (deployPrints []))
  = Returned tt
      {| ctx := set_account acme (context deploying);
         world := deployPrints [];
         trace := [Listed] |}.
Proof.
  apply (@X1_single_account_selected_without_prompt Script scripted
           (start deploying (deployPrints []))
           (lit "acme") (lit "acct_1") (deployPrints [])).
  reflexivity.
Defined.

(** [X2] Two accounts, and the operator picks the second. *)
Lemma X2_second_account_run :
  exists s',
    chooseAccount (start deploying (twoAccounts (lit "acct_2")))
    = Returned tt s' /\
    performed [] (trace s') =
      [Listed;
       Chose accountQuestion
             [(lit "acme", lit "acct_1"); (lit "beta", lit "acct_2")]].
Proof.
  destruct (@X2_operator_choice_is_bound Script scripted
              (start deploying (twoAccounts (lit "acct_2")))
              [(lit "acme", lit "acct_1"); (lit "beta", lit "acct_2")]
              (twoAccounts (lit "acct_2")) (twoAccounts (lit "acct_2"))
              (lit "acct_2"))
    as [name [R _]].
  - reflexivity.
  - simpl; discriminate.
  - reflexivity.
  - eexists; split; [exact R | reflexivity].
Defined.

(** [X3] The login works and the listing fails. *)
Lemma X3_listing_failure_run :
  exists e s',
    offerToDeploy (start undecided listingFails) = Threw e s' /\
    deploy (args (ctx s')) = Some true /\
    account (ctx s') = None.
Proof.
  destruct (@X3_listing_failure_propagates Script scripted
              (start undecided listingFails)
              listingFails listingFails listingFails)
    as [e [s' [R [C _]]]]; try reflexivity.
  exists e, s'; split; [exact R | now rewrite C].
Defined.

(** [X4] The operator declines the deploy. *)
Lemma X4_declined_deploy_run :
  exists s',
    bind offerToDeploy (fun _ => runDeploy) (start undecided declining)
    = Returned tt s' /\
    deployedUrl (ctx s') = None /\
    commands (trace s') = [].
Proof.
  destruct (@X4_declined_deploy_does_nothing Script scripted
              (start undecided declining) declining plain (fun _ => true))
    as [s' [R [_ [_ [T [U _]]]]]]; try reflexivity.
  exists s'; split; [exact R|]; split; [exact U|].
  unfold performed in T; simpl in T; now rewrite T.
Defined.

(** [X5] The operator accepts, logs in, and has one account. *)
Lemma X5_accepted_deploy_run :
  exists s1,
    offerToDeploy (start undecided (deployPrints (lit "https://foo.pages.dev")))
    = Returned tt s1 /\
    (forall s', runDeploy s1 <> Crashed MissingAccount s').
Proof.
  destruct (@X5_accepted_deploy_runs_with_chosen_account Script scripted
              (start undecided (deployPrints (lit "https://foo.pages.dev")))
              (deployPrints (lit "https://foo.pages.dev"))
              (deployPrints (lit "https://foo.pages.dev"))
              (deployPrints (lit "https://foo.pages.dev"))
              [(lit "acme", lit "acct_1")])
    as [s1 [R [_ [_ K]]]]; try reflexivity; try discriminate.
  exists s1; split; [exact R | exact K].
Defined.

(** [X6] A deploy that is due, with and without an account. *)
Lemma X6_with_and_without_account_runs :
  runDeploy (start deploying bare)
  = Crashed MissingAccount (start deploying bare) /\
  performed [] (trace (outcomeState (runDeploy (readyToDeploy [])))) =
    [Ran (deployCommandOf (ctx (readyToDeploy [])) acme)].
Proof.
  split.
  - apply (proj1 (proj2 (@X6_runDeploy_runs_at_most_the_deploy_command
                           Script scripted (start deploying bare))));
      [discriminate | now left].
  - apply (proj2 (proj2 (@X6_runDeploy_runs_at_most_the_deploy_command
                           Script scripted (readyToDeploy [])))
             acme); [discriminate | reflexivity | discriminate].
Defined.

(** [X7] The deploy command exits with an error. *)
Lemma X7_deploy_command_failure_run :
  exists s', runDeploy deployWillFail = Threw (lit "exit 1") s' /\
             deployedUrl (ctx s') = None.
Proof.
  destruct (@X7_deploy_command_failure_propagates Script scripted
              deployWillFail acme (lit "exit 1") deployFails)
    as [R C]; try reflexivity; try discriminate.
  eexists; split; [exact R | reflexivity].
Defined.

(** [X8] An output that is a workers URL. *)
Lemma X8_workers_url_run :
  exists s' rest,
    runDeploy (readyToDeploy (lit "https://api.example.workers.dev"))
    = Returned tt s' /\
    deployedUrl (ctx s') = Some (lit "https://" ++ rest).
Proof.
  apply (proj1 (proj1 (@X8_runDeploy_returns_iff_output_has_url Script scripted
                         (readyToDeploy (lit "https://api.example.workers.dev"))
                         (lit "https://api.example.workers.dev")
                         (deployPrints (lit "https://api.example.workers.dev"))
                         (readyToDeploy_output _)))).
  exists [], (lit "https://api.example.workers.dev"), []; split; [reflexivity|].
  exists (lit "api.example"), (lit ".workers.dev").
  split; [reflexivity|]; split; [discriminate|]; split; [reflexivity|].
  now right.
Defined.

(** [X9] The line a deploy prints. *)
Lemma X9_printed_line_run :
  exists s',
    runDeploy (readyToDeploy printed) = Returned tt s' /\
    deployedUrl (ctx s') = Some (lit "https://foo.pages.dev").
Proof.
  destruct (@X9_url_ending_its_line_is_extracted_whole Script scripted
              (readyToDeploy printed) (deployPrints printed)
              peek (lit "abcd1234.foo") (lit ".pages.dev") [])
    as [_ [s' [R U]]]; try reflexivity; try discriminate.
  - apply readyToDeploy_output.
  - now left.
  - exists s'; split; [exact R | rewrite U; vm_compute; reflexivity].
Defined.

(** [X10] A preview host of four labels. *)
Lemma X10_preview_host_run :
  canonicalUrl (lit "https://" ++ lit "abcd1234.foo" ++ lit ".pages.dev")
  = Some (lit "https://foo.pages.dev").
Proof.
  destruct (@X10_pages_url_is_reduced_to_one_label (lit "abcd1234.foo"))
    as [H _]; [vm_compute; reflexivity|].
  rewrite H; vm_compute; reflexivity.
Defined.

(** [X13] No flag, no repository, and the operator says yes. *)
Lemma X13_answer_yes_run :
  git (args (ctx (outcomeState
                    (offerGit (start undecided (gitWorld true []))))))
  = Some true.
Proof.
  apply (@X13_offerGit_obeys_the_decision Script scripted
           (start undecided (gitWorld true [])) (gitWorld true [])).
  exists (lit "git version 2.39.2"), (gitWorld true []); split; [reflexivity|].
  left; exists (lit "fatal: not a git repository"); reflexivity.
Defined.

(** [X15] The default branch is configured as [main]. *)
Lemma X15_configured_branch_run :
  exists s',
    initializeGit projectPath (start withGit configured) = Returned tt s' /\
    commands (trace s') =
      [lit "git config --get init.defaultBranch";
       lit "git init --initial-branch main"].
Proof.
  destruct (@X15_configured_branch_is_requested Script scripted
              projectPath (lit "main") (start withGit configured)
              configured configured (lit "Initialized empty Git repository"))
    as [s' [R [_ T]]]; try reflexivity.
  exists s'; split; [exact R|].
  unfold performed in T; simpl in T; exact T.
Defined.

(** [X16] The tool is not installed and no flag was given. *)
Lemma X16_no_tool_run :
  exists s',
    bind offerGit (fun _ => gitCommit noCommands) (start undecided bare)
    = Returned tt s' /\
    git (args (ctx s')) = Some false.
Proof.
  destruct (@X16_no_tool_no_commit Script scripted noCommands
              (start undecided bare) (lit "command not found") bare)
    as [s' [R [G _]]]; [reflexivity|].
  exists s'; split; [exact R | exact G].
Defined.

(** [X17] The flag was given, and the directory is a repository. *)
Lemma X17_versioned_with_flag_run :
  exists s',
    bind offerGit (fun _ => gitCommit noCommands) (start withGit versionedWorld)
    = Returned tt s'.
Proof.
  destruct (@X17_commit_on_versioned_directory_follows_the_flag
              Script scripted noCommands (start withGit versionedWorld)
              versionedWorld)
    as [w1 R].
  - exists (lit "git version 2.39.2"), versionedWorld, (lit "On branch main").
    repeat split; reflexivity.
  - eexists; rewrite R; reflexivity.
Defined.

(** [X18] A new project in the working directory. *)
Lemma X18_new_project_run :
  performed []
    (trace (outcomeState
              (setupProjectDirectory undecided
                 (start undecided (withEntries [])))))
  = [MadeDir (lit "/work"); ChangedDir (lit "/work")].
Proof.
  apply (proj2 (proj2 (@X18_setupProjectDirectory_prepares_the_parent
                         Script scripted undecided
                         (start undecided (withEntries [])))))
    with (r := (lit "foo", lit "/work/foo")).
  reflexivity.
Defined.


End MoreRuns.
